(** * CattoPic worker: upload, random retrieval and cleanup handlers

    A shallow embedding of the three request handlers of the worker
    ([handlers/upload.ts], the random-image handler and the cleanup handler)
    together with the properties the specification states about them.

    The handlers are asynchronous TypeScript functions that talk to an object
    store (R2), a metadata database (D1), an image transcoder and an HTTP
    transform endpoint.  They are modelled in a small monad that threads the
    state of the two stores, records the observable I/O as a trace of events,
    and has two abrupt completions: a [return] statement and a thrown
    exception (a rejected promise that is awaited). *)

From Stdlib Require Import ZArith Lia Ascii String List.
From stdpp Require Import base option list gmap strings.

Local Open Scope string_scope.
Local Open Scope list_scope.
Local Open Scope Z_scope.

(** ** Data model *)

(** Raw bytes (an [ArrayBuffer]). *)
Definition Blob := list Byte.byte.

(** [image.paths]: one storage key per variant; [""] is an empty slot. *)
Record Paths := mkPaths {
  paths_original : string;
  paths_webp : string;
  paths_avif : string
}.

(** [image.sizes]: byte sizes per variant. *)
Record Sizes := mkSizes {
  sizes_original : Z;
  sizes_webp : Z;
  sizes_avif : Z
}.

(** The result of [buildImageUrls]. *)
Record Urls := mkUrls {
  urls_original : string;
  urls_webp : string;
  urls_avif : string
}.

(** [ImageMetadata] as the upload handler builds it.  Timestamps are kept as
    epoch milliseconds (their ISO rendering plays no role here). *)
Record ImageMetadata := mkImageMetadata {
  id : string;
  originalName : string;
  uploadTime : Z;
  expiryTime : option Z;
  orientation : string;
  tags : list string;
  format : string;
  width : Z;
  height : Z;
  paths : Paths;
  sizes : Sizes
}.

(** What [ImageProcessor.getImageInfo] resolves to. *)
Record ImageInfo := mkImageInfo {
  info_format : string;
  info_width : Z;
  info_height : Z;
  info_orientation : string
}.

(** The two option flags the handlers read; each is [boolean | undefined]. *)
Record CompressionOptions := mkCompressionOptions {
  generateWebp : option bool;
  generateAvif : option bool
}.

(** One encoded variant returned by the transcoder. *)
Record Encoded := mkEncoded {
  enc_data : Blob;
  enc_size : Z
}.

(** The result of [CompressionService.compress]; a missing field is
    [undefined]. *)
Record CompressionResult := mkCompressionResult {
  cr_webp : option Encoded;
  cr_avif : option Encoded
}.

(** An uploaded [File]. *)
Record File := mkFile {
  file_name : string;
  file_size : Z;
  file_data : Blob
}.

(** A value of a multipart form field. *)
Inductive FormEntry :=
| EntryString (s : string)
| EntryFile (f : File).

(** [FormData]: the fields in order; [get] returns the first one of a name. *)
Definition FormData := list (string * FormEntry).

Fixpoint formData_get (fd : FormData) (name : string) : option FormEntry :=
  match fd with
  | [] => None
  | (k, v) :: rest => if String.eqb k name then Some v else formData_get rest name
  end.

(** [UploadResult], the payload of a successful upload. *)
Record UploadResult := mkUploadResult {
  res_id : string;
  res_status : string;
  res_urls : Urls;
  res_orientation : string;
  res_tags : list string;
  res_sizes : Sizes;
  res_expiryTime : option Z;
  res_format : string
}.

(** Payloads of [successResponse]. *)
Inductive Payload :=
| PUpload (result : UploadResult)
| PCleanup (deletedCount : Z).

(** Responses.  [errorResponse msg status] keeps the optional status argument
    as the handler passes it ([None]: the helper's default status);
    [rawResponse] is [new Response(body, {headers})] with its Content-Type. *)
Inductive Response :=
| errorResponse (msg : string) (status : option Z)
| successResponse (p : Payload)
| rawResponse (body : Blob) (contentType : string).

(** The response of the transform endpoint as [fetch] resolves it. *)
Record Upstream := mkUpstream {
  up_ok : bool;
  up_status : Z;
  up_body : option Blob;
  up_contentType : option string
}.

(** The filter handed to [MetadataService.getRandomImage]. *)
Record Filter := mkFilter {
  f_tags : option (list string);
  f_exclude : option (list string);
  f_orientation : option string
}.

(** The negotiated target format, ['original' | 'webp' | 'avif']. *)
Inductive Target := original | webp | avif.

#[global] Instance Target_eq_dec : EqDecision Target.
Proof. solve_decision. Defined.

(** ** Constants *)

(** Maximum file size: 70MB. *)
Definition MAX_FILE_SIZE : Z := 70 * 1024 * 1024.

(** Transcoder input limit: 10MB. *)
Definition CLOUDFLARE_IMAGES_MAX_BYTES : Z := 10 * 1024 * 1024.

(** The largest time value of a [Date], in milliseconds either side of the
    epoch; beyond it the date is invalid. *)
Definition MAX_TIME_VALUE : Z := 8640000000000000.

(** Is [t] the time value of a valid [Date]. *)
Definition valid_date (t : Z) : bool := Z.abs t <=? MAX_TIME_VALUE.

(** ** JavaScript primitives the handlers rely on *)

(** Truthiness of a string: only [""] is falsy. *)
Definition truthy (s : string) : bool := negb (String.eqb s "").

(** [a || b] on strings. *)
Definition str_or (a b : string) : string := if truthy a then a else b.

(** [opt !== false] on [boolean | undefined]. *)
Definition not_false (o : option bool) : bool :=
  match o with Some false => false | _ => true end.

(** The white space [parseInt] skips ([StrWhiteSpaceChar]). A header value
    is a byte string, one character per byte, so only the code points up to
    255 arise: TAB, LF, VT, FF, CR, SP and the no-break space U+00A0. *)
Definition is_ws (c : ascii) : bool :=
  let n := nat_of_ascii c in
  ((9 <=? n) && (n <=? 13))%nat || (n =? 32)%nat || (n =? 160)%nat.

Definition digit_of (c : ascii) : option Z :=
  let n := nat_of_ascii c in
  if ((48 <=? n) && (n <=? 57))%nat then Some (Z.of_nat n - 48) else None.

Fixpoint skip_ws (s : string) : string :=
  match s with
  | String c rest => if is_ws c then skip_ws rest else s
  | EmptyString => s
  end.

(** The longest prefix of decimal digits, accumulated from [acc]; [seen]
    tells whether a digit has been read. *)
Fixpoint digits (s : string) (seen : bool) (acc : Z) : option Z :=
  match s with
  | String c rest =>
      match digit_of c with
      | Some d => digits rest true (10 * acc + d)
      | None => if seen then Some acc else None
      end
  | EmptyString => if seen then Some acc else None
  end.

(** [parseInt(s, 10)]: leading white space, an optional sign, then the
    longest prefix of digits; [None] stands for [NaN].  The result is the
    exact integer: the handler only compares it with [MAX_FILE_SIZE], and
    rounding to a double is monotone and leaves that constant fixed. *)
Definition parseInt (s : string) : option Z :=
  match skip_ws s with
  | String "-" rest => option_map Z.opp (digits rest false 0)
  | String "+" rest => digits rest false 0
  | t => digits t false 0
  end.

(** ** External collaborators *)

(** Helpers of the repository that the handlers import.  Their sources are
    not part of the handlers; the handlers are verified for every
    implementation of them. *)
Record Lib := mkLib {
  getImageInfo : Blob -> option ImageInfo;     (* [None]: the promise rejects *)
  isSupportedFormat : string -> bool;
  getContentType : string -> string;
  generatePaths : string -> string -> string -> Paths;
  parseTags : option FormEntry -> list string;
  parseNumber : option FormEntry -> Z -> Z;
  parseCompressionOptions : FormData -> CompressionOptions;
  buildImageUrls : string -> ImageMetadata -> CompressionOptions -> Urls;
  isMobileDevice : option string -> bool;
  getBestFormat : option string -> Target
}.

(** The bindings of one request and the behaviour of the services behind
    them: which calls fail, and what the non-deterministic ones answer. *)
Record Env := mkEnv {
  IMAGES : option (Blob -> string -> CompressionOptions -> option CompressionResult);
      (* the transcoder binding, if configured; [None] result: it rejects *)
  R2_PUBLIC_URL : string;
  generateImageId : string;
  now : Z;
  upload_ok : string -> bool;        (* does [storage.upload key] fulfil *)
  saveImage_ok : bool;               (* does [metadata.saveImage] fulfil *)
  getRandomImage : Filter -> option (option ImageMetadata);
  get_ok : string -> bool;           (* does [storage.get key] fulfil *)
  fetch : string -> option Upstream;
  getExpiredImages : option (list ImageMetadata);
  deleteMany_ok : list string -> bool;
  deleteImage_ok : string -> bool
}.

(** The state of the two stores. *)
Record World := mkWorld {
  bucket : gmap string Blob;   (* object store: key -> bytes *)
  db : list ImageMetadata      (* metadata rows *)
}.

(** Observable I/O, in the order the handler performs or awaits it. *)
Inductive Event :=
| EvReadBody                          (* [c.req.formData()] *)
| EvPutStart (key : string)           (* [storage.upload] issued *)
| EvPutDone (key : string)            (* an awaited upload fulfilled *)
| EvPutFailed (key : string)          (* an awaited upload rejected *)
| EvTranscodeStart                    (* [compression.compress] issued *)
| EvTranscodeDone (ok : bool)         (* the awaited transcode settled *)
| EvSaveImage (r : ImageMetadata)     (* [metadata.saveImage] fulfilled *)
| EvSaveFailed
| EvInvalidate                        (* cache invalidation handed to [waitUntil] *)
| EvSelect (f : Filter)               (* [metadata.getRandomImage] *)
| EvGet (key : string)                (* [storage.get] *)
| EvFetch (url : string)              (* [fetch] of a transform URL *)
| EvListExpired                       (* [metadata.getExpiredImages] *)
| EvDeleteMany (keys : list string) (ok : bool)
| EvDeleteImage (id : string) (ok : bool).

(** ** The handler monad *)

Inductive Res (A : Type) : Type :=
| Val (a : A)          (* normal completion *)
| Ret (r : Response)   (* a [return] statement of the handler *)
| Exn.                 (* a thrown exception *)
Arguments Val {A} a.
Arguments Ret {A} r.
Arguments Exn {A}.

Definition M (A : Type) : Type := World -> Res A * World * list Event.

Definition ret {A} (a : A) : M A := fun w => (Val a, w, []).

Definition bind {A B} (m : M A) (k : A -> M B) : M B :=
  fun w =>
    match m w with
    | (Val a, w1, t1) =>
        match k a w1 with
        | (r, w2, t2) => (r, w2, t1 ++ t2)
        end
    | (Ret r, w1, t1) => (Ret r, w1, t1)
    | (Exn, w1, t1) => (Exn, w1, t1)
    end.

Notation "x <- m ;; k" := (bind m (fun x => k))
  (at level 100, m at next level, right associativity).
Notation "m ;;; k" := (bind m (fun _ => k))
  (at level 100, right associativity).

Definition return_ {A} (r : Response) : M A := fun w => (Ret r, w, []).
Definition throw {A} : M A := fun w => (Exn, w, []).
Definition emit (e : Event) : M unit := fun w => (Val tt, w, [e]).
Definition get_world : M World := fun w => (Val w, w, []).
Definition set_world (w' : World) : M unit := fun _ => (Val tt, w', []).

(** [try { m } catch { h }]: a [return] inside [m] leaves the handler. *)
Definition try_catch {A} (m : M A) (h : M A) : M A :=
  fun w =>
    match m w with
    | (Exn, w1, t1) =>
        match h w1 with
        | (r, w2, t2) => (r, w2, t1 ++ t2)
        end
    | other => other
    end.

(** Running a handler body: the value it completes with or returns is the
    response; an exception that escaped reaches the handler's outer
    [catch]. *)
Definition run (body : M Response) (onError : Response) (w : World)
  : Response * World * list Event :=
  match body w with
  | (Val r, w1, t) => (r, w1, t)
  | (Ret r, w1, t) => (r, w1, t)
  | (Exn, w1, t) => (onError, w1, t)
  end.

Definition response (o : Response * World * list Event) : Response := o.1.1.
Definition world (o : Response * World * list Event) : World := o.1.2.
Definition trace (o : Response * World * list Event) : list Event := o.2.

(** ** Service calls *)

(** A pending [storage.upload]: the key and the bytes being written. *)
Record UploadPromise := mkUploadPromise {
  pr_key : string;
  pr_data : Blob
}.

(** The local variables the upload handler mutates. *)
Record Locals := mkLocals {
  l_paths : Paths;
  l_webpSize : Z;
  l_avifSize : Z
}.

(** An upload promise with its [.then] callback on the locals. *)
Record Pending := mkPending {
  pending_promise : UploadPromise;
  pending_then : Locals -> Locals
}.

Definition set_webp (l : Locals) (p : string) : Locals :=
  mkLocals (mkPaths (paths_original (l_paths l)) p (paths_avif (l_paths l)))
           (l_webpSize l) (l_avifSize l).

Definition set_avif (l : Locals) (p : string) : Locals :=
  mkLocals (mkPaths (paths_original (l_paths l)) (paths_webp (l_paths l)) p)
           (l_webpSize l) (l_avifSize l).

Definition set_webpSize (l : Locals) (n : Z) : Locals :=
  mkLocals (l_paths l) n (l_avifSize l).

Definition set_avifSize (l : Locals) (n : Z) : Locals :=
  mkLocals (l_paths l) (l_webpSize l) n.

(** An upload request: the declared [Content-Length] header and the
    multipart body ([None]: [formData()] rejects). *)
Record UploadRequest := mkUploadRequest {
  req_contentLength : option string;
  req_body : option FormData
}.

(** A retrieval request: the query parameters and the two headers read. *)
Record RandomRequest := mkRandomRequest {
  q_tags : option string;
  q_exclude : option string;
  q_orientation : option string;
  q_format : option string;
  h_userAgent : option string;
  h_accept : option string
}.

Section Handlers.

Variable lib : Lib.
Variable env : Env.

(** [storage.upload(key, data, _)] is issued here and settles when it is
    awaited; the write is applied to the store no later than that. *)
Definition storage_upload (key : string) (data : Blob) : M UploadPromise :=
  emit (EvPutStart key) ;;; ret (mkUploadPromise key data).

Definition write_object (p : UploadPromise) : M unit :=
  w <- get_world ;;
  set_world (mkWorld (<[pr_key p := pr_data p]> (bucket w)) (db w)).

(** Settling one upload: [true] when it fulfilled. *)
Definition settle_upload (p : UploadPromise) : M bool :=
  if upload_ok env (pr_key p)
  then write_object p ;;; emit (EvPutDone (pr_key p)) ;;; ret true
  else emit (EvPutFailed (pr_key p)) ;;; ret false.

(** [await promise]. *)
Definition await_upload (p : UploadPromise) : M unit :=
  ok <- settle_upload p ;;
  if ok then ret tt else throw.

(** [await Promise.all(promises)]: every upload in the list is in flight;
    the callbacks of the fulfilled ones run; the await throws when one of
    them rejected.  Which of the siblings of a rejected upload have settled
    by then depends on the schedule; the model takes the one in which all of
    them have, in the order of the list.  Nothing below is stated about the
    settlement of a sibling of a rejected upload. *)
Fixpoint Promise_all (ps : list Pending) (l : Locals) (all_ok : bool) : M Locals :=
  match ps with
  | [] => if all_ok then ret l else throw
  | p :: rest =>
      ok <- settle_upload (pending_promise p) ;;
      Promise_all rest (if ok then pending_then p l else l) (all_ok && ok)
  end.

(** [compression.compress(...)]: issued, then awaited. *)
Definition compress_start
    (compress : Blob -> string -> CompressionOptions -> option CompressionResult)
    (data : Blob) (fmt : string) (o : CompressionOptions)
  : M (option CompressionResult) :=
  emit EvTranscodeStart ;;; ret (compress data fmt o).

Definition await_compress (p : option CompressionResult) : M CompressionResult :=
  match p with
  | Some r => emit (EvTranscodeDone true) ;;; ret r
  | None => emit (EvTranscodeDone false) ;;; throw
  end.

(** [await metadata.saveImage(record)]. *)
Definition saveImage (r : ImageMetadata) : M unit :=
  if saveImage_ok env
  then w <- get_world ;;
       set_world (mkWorld (bucket w) (db w ++ [r])) ;;;
       emit (EvSaveImage r)
  else emit EvSaveFailed ;;; throw.

(** [await c.req.formData()]. *)
Definition read_formData (req : UploadRequest) : M FormData :=
  emit EvReadBody ;;;
  match req_body req with
  | Some fd => ret fd
  | None => throw
  end.

(** ** The upload handler, [uploadSingleHandler] *)

Definition too_large : Response :=
  errorResponse "File too large. Maximum size is 70MB" (Some 413).

(** Lines 24-31: the declared length is checked before anything is read. *)
Definition check_content_length (h : option string) : M unit :=
  match h with
  | Some contentLength =>
      if truthy contentLength then
        match parseInt contentLength with
        | Some size => if size >? MAX_FILE_SIZE then return_ too_large else ret tt
        | None => ret tt
        end
      else ret tt
  | None => ret tt
  end.

(** Lines 90-100: gif, webp and avif are stored as they are. *)
Definition pass_through (file : File) (isWebp isAvif : bool)
    (originalUploadPromise : UploadPromise) (l0 : Locals) : M Locals :=
  await_upload originalUploadPromise ;;;
  let l1 := if isWebp
            then set_webpSize (set_webp l0 (paths_original (l_paths l0))) (file_size file)
            else l0 in
  let l2 := if isAvif
            then set_avifSize (set_avif l1 (paths_original (l_paths l1))) (file_size file)
            else l1 in
  ret l2.

(** Lines 101-138: the transcoding path. *)
Definition transcode_path
    (compress : Blob -> string -> CompressionOptions -> option CompressionResult)
    (arrayBuffer : Blob) (fmt : string) (compressionOptions : CompressionOptions)
    (generatedPaths : Paths)
    (originalUploadPromise : UploadPromise) (l0 : Locals) : M Locals :=
  compressionPromise <- compress_start compress arrayBuffer fmt compressionOptions ;;
  let wantsWebp := not_false (generateWebp compressionOptions) in
  let wantsAvif := not_false (generateAvif compressionOptions) in
  await_upload originalUploadPromise ;;;
  compressionResult <- await_compress compressionPromise ;;
  s1 <- match wantsWebp, cr_webp compressionResult with
        | true, Some e =>
            let l := set_webp l0 (paths_webp generatedPaths) in
            p <- storage_upload (paths_webp (l_paths l)) (enc_data e) ;;
            ret (l, [mkPending p (fun l' => set_webpSize l' (enc_size e))])
        | _, _ => ret (l0, [])
        end ;;
  s2 <- match wantsAvif, cr_avif compressionResult with
        | true, Some e =>
            let l := set_avif s1.1 (paths_avif generatedPaths) in
            p <- storage_upload (paths_avif (l_paths l)) (enc_data e) ;;
            ret (l, s1.2 ++ [mkPending p (fun l' => set_avifSize l' (enc_size e))])
        | _, _ => ret s1
        end ;;
  l3 <- (if (0 <? length s2.2)%nat then Promise_all s2.2 s2.1 true else ret s2.1) ;;
  let l4 := if wantsWebp && negb (truthy (paths_webp (l_paths l3)))
            then set_webp l3 (paths_original (l_paths l3)) else l3 in
  let l5 := if wantsAvif && negb (truthy (paths_avif (l_paths l4)))
            then set_avif l4 (paths_original (l_paths l4)) else l4 in
  ret l5.

(** Lines 139-146: no transcoding, marker paths for the wanted variants. *)
Definition skip_path (compressionOptions : CompressionOptions)
    (originalUploadPromise : UploadPromise) (l0 : Locals) : M Locals :=
  await_upload originalUploadPromise ;;;
  let wantsWebp := not_false (generateWebp compressionOptions) in
  let wantsAvif := not_false (generateAvif compressionOptions) in
  let l1 := if wantsWebp then set_webp l0 (paths_original (l_paths l0)) else l0 in
  let l2 := if wantsAvif then set_avif l1 (paths_original (l_paths l1)) else l1 in
  ret l2.

(** Lines 90-146: the three ways the variants are filled in. *)
Definition fill_variants (file : File) (imageInfo : ImageInfo)
    (compressionOptions : CompressionOptions) (generatedPaths : Paths)
    (originalUploadPromise : UploadPromise) (l0 : Locals) : M Locals :=
  let compression := IMAGES env in
  let arrayBuffer := file_data file in
  let isGif := String.eqb (info_format imageInfo) "gif" in
  let isWebp := String.eqb (info_format imageInfo) "webp" in
  let isAvif := String.eqb (info_format imageInfo) "avif" in
  let shouldSkipProcessing := isGif || isWebp || isAvif in
  if shouldSkipProcessing
  then pass_through file isWebp isAvif originalUploadPromise l0
  else match compression with
       | Some compress =>
           if file_size file <=? CLOUDFLARE_IMAGES_MAX_BYTES
           then transcode_path compress arrayBuffer (info_format imageInfo)
                  compressionOptions generatedPaths originalUploadPromise l0
           else skip_path compressionOptions originalUploadPromise l0
       | None => skip_path compressionOptions originalUploadPromise l0
       end.

(** Lines 148-153: the expiry, when [expiryMinutes] is positive.
    [toISOString] throws a [RangeError] on an invalid date, that is when the
    time value leaves the range of [Date].  (With [expiryMinutes] an
    integer the arithmetic is exact wherever the date is valid: every valid
    time value is below 2^53.) *)
Definition expiry_time (expiryMinutes : Z) : M (option Z) :=
  if expiryMinutes >? 0 then
    let expiry := now env + expiryMinutes * 60 * 1000 in
    if valid_date expiry then ret (Some expiry) else throw
  else ret None.

(** Lines 155-172: the record that is saved. *)
Definition build_metadata (file : File) (imageInfo : ImageInfo) (tags : list string)
    (expiryTime : option Z) (l : Locals) : ImageMetadata :=
  mkImageMetadata (generateImageId env) (file_name file) (now env) expiryTime
    (info_orientation imageInfo) tags (info_format imageInfo)
    (info_width imageInfo) (info_height imageInfo)
    (l_paths l)
    (mkSizes (file_size file) (l_webpSize l) (l_avifSize l)).

(** Lines 176-196: the payload of the response. *)
Definition build_result (imageMetadata : ImageMetadata)
    (compressionOptions : CompressionOptions) : UploadResult :=
  let urls := buildImageUrls lib (R2_PUBLIC_URL env) imageMetadata compressionOptions in
  mkUploadResult (id imageMetadata) "success" urls (orientation imageMetadata)
    (tags imageMetadata) (sizes imageMetadata) (expiryTime imageMetadata)
    (format imageMetadata).

(** Lines 73-207: store the image, save its record, answer. *)
Definition store_image (file : File) (imageInfo : ImageInfo) (tags : list string)
    (expiryMinutes : Z) (compressionOptions : CompressionOptions) : M Response :=
  let generatedPaths :=
    generatePaths lib (generateImageId env) (info_orientation imageInfo)
      (info_format imageInfo) in
  let l0 := mkLocals (mkPaths (paths_original generatedPaths) "" "") 0 0 in
  originalUploadPromise <- storage_upload (paths_original (l_paths l0)) (file_data file) ;;
  l <- fill_variants file imageInfo compressionOptions generatedPaths
         originalUploadPromise l0 ;;
  expiryTime <- expiry_time expiryMinutes ;;
  let imageMetadata := build_metadata file imageInfo tags expiryTime l in
  saveImage imageMetadata ;;;
  let result := build_result imageMetadata compressionOptions in
  emit EvInvalidate ;;;
  ret (successResponse (PUpload result)).

(** Lines 50-71, once a file has been found in the form. *)
Definition process_file (file : File) (tagsString : option FormEntry)
    (expiryMinutes : Z) (compressionOptions : CompressionOptions) : M Response :=
  if file_size file >? MAX_FILE_SIZE then return_ too_large else
  let tags := parseTags lib tagsString in
  imageInfo <- match getImageInfo lib (file_data file) with
               | Some i => ret i
               | None => throw
               end ;;
  if negb (isSupportedFormat lib (info_format imageInfo))
  then return_ (errorResponse ("Unsupported format: " +:+ info_format imageInfo) None)
  else store_image file imageInfo tags expiryMinutes compressionOptions.

(** Lines 22-55: the body of the outer [try]. *)
Definition uploadSingle_body (req : UploadRequest) : M Response :=
  check_content_length (req_contentLength req) ;;;
  formData <- try_catch (read_formData req)
                (return_ (errorResponse
                   "Failed to parse form data. File may be too large or corrupted."
                   (Some 400))) ;;
  let file := formData_get formData "image" in
  let tagsString := formData_get formData "tags" in
  let expiryMinutes := parseNumber lib (formData_get formData "expiryMinutes") 0 in
  let compressionOptions := parseCompressionOptions lib formData in
  match file with
  | Some (EntryFile file) => process_file file tagsString expiryMinutes compressionOptions
  | Some (EntryString _) | None => return_ (errorResponse "No file provided" None)
  end.

Definition uploadSingleHandler (req : UploadRequest) (w : World)
  : Response * World * list Event :=
  run (uploadSingle_body req) (errorResponse "Upload failed" None) w.

(** ** The retrieval handler, [randomHandler] *)

(** What lines 58-109 decide: the URL to proxy, the object-store key to read
    ([None] is [null]) and the Content-Type to fall back to. *)
Record Plan := mkPlan {
  targetUrl : string;
  r2Key : option string;
  contentTypeFallback : string
}.

(** Lines 70-77: the explicit [format] parameter, else the Accept header. *)
Definition select_format (formatParam acceptHeader : option string) : Target :=
  match formatParam with
  | Some f =>
      if String.eqb f "webp" then webp
      else if String.eqb f "avif" then avif
      else if String.eqb f "original" then original
      else getBestFormat lib acceptHeader
  | None => getBestFormat lib acceptHeader
  end.

(** Lines 83-90 and 95-102: the key for a derived variant, from the URL built
    for it, its slot, the original's slot and whether the source already has
    the target's format. *)
Definition variant_key (url slot orig : string) (sameFormat : bool) : option string :=
  if negb (truthy url) then Some orig
  else if truthy slot then
    let isMarker := String.eqb slot orig && negb sameFormat in
    if isMarker then None else Some slot
  else None.

(** Lines 79-108: the [switch] on the chosen format. *)
Definition plan_for (image : ImageMetadata) (urls : Urls) (fmt : Target) : Plan :=
  match fmt with
  | avif =>
      mkPlan (str_or (urls_avif urls) (urls_original urls))
             (variant_key (urls_avif urls) (paths_avif (paths image))
                (paths_original (paths image)) (String.eqb (format image) "avif"))
             (if truthy (urls_avif urls) then "image/avif"
              else getContentType lib (format image))
  | webp =>
      mkPlan (str_or (urls_webp urls) (urls_original urls))
             (variant_key (urls_webp urls) (paths_webp (paths image))
                (paths_original (paths image)) (String.eqb (format image) "webp"))
             (if truthy (urls_webp urls) then "image/webp"
              else getContentType lib (format image))
  | original =>
      mkPlan (urls_original urls) (Some (paths_original (paths image)))
             (getContentType lib (format image))
  end.

(** Lines 63-109. *)
Definition plan (image : ImageMetadata) (urls : Urls)
    (formatParam acceptHeader : option string) : Plan :=
  if String.eqb (format image) "gif" then
    mkPlan (urls_original urls) (Some (paths_original (paths image))) "image/gif"
  else plan_for image urls (select_format formatParam acceptHeader).

(** [await metadata.getRandomImage(filter)]. *)
Definition metadata_getRandomImage (f : Filter) : M (option ImageMetadata) :=
  emit (EvSelect f) ;;;
  match getRandomImage env f with
  | Some r => ret r
  | None => throw
  end.

(** [await storage.get(key)]: the stored object, or [null] when absent. *)
Definition storage_get (key : string) : M (option Blob) :=
  emit (EvGet key) ;;;
  if get_ok env key
  then w <- get_world ;; ret (bucket w !! key)
  else throw.

(** [await fetch(url)]. *)
Definition fetch_url (url : string) : M Upstream :=
  emit (EvFetch url) ;;;
  match fetch env url with
  | Some u => ret u
  | None => throw
  end.

Definition not_found : Response := errorResponse "Image file not found" (Some 404).

(** Lines 128-142: proxy the transformed response. *)
Definition serve_proxy (p : Plan) : M Response :=
  upstream <- fetch_url (targetUrl p) ;;
  match up_ok upstream, up_body upstream with
  | true, Some body =>
      let contentType :=
        match up_contentType upstream with
        | Some ct => str_or ct (contentTypeFallback p)
        | None => contentTypeFallback p
        end in
      ret (rawResponse body contentType)
  | _, _ => return_ not_found
  end.

(** Lines 111-142: serve from the object store when there is a key. *)
Definition serve (p : Plan) : M Response :=
  match r2Key p with
  | Some key =>
      if truthy key then
        file <- storage_get key ;;
        match file with
        | None => return_ not_found
        | Some body => ret (rawResponse body (contentTypeFallback p))
        end
      else serve_proxy p
  | None => serve_proxy p
  end.

(** Lines 26-34: the orientation to filter on. *)
Definition pick_orientation (orientationParam userAgent : option string) : string :=
  match orientationParam with
  | Some o =>
      if String.eqb o "landscape" || String.eqb o "portrait" then o
      else if isMobileDevice lib userAgent then "portrait" else "landscape"
  | None => if isMobileDevice lib userAgent then "portrait" else "landscape"
  end.

(** The options the retrieval handler hands to [buildImageUrls]. *)
Definition url_options (image : ImageMetadata) : CompressionOptions :=
  mkCompressionOptions
    (Some (truthy (paths_webp (paths image))
           || (sizes_original (sizes image) >? CLOUDFLARE_IMAGES_MAX_BYTES)))
    (Some (truthy (paths_avif (paths image))
           || (sizes_original (sizes image) >? CLOUDFLARE_IMAGES_MAX_BYTES))).

(** Lines 23-42: the filter built from the query. *)
Definition filter_of (req : RandomRequest) : Filter :=
  let tags := parseTags lib (option_map EntryString (q_tags req)) in
  let exclude := parseTags lib (option_map EntryString (q_exclude req)) in
  let orientation := pick_orientation (q_orientation req) (h_userAgent req) in
  mkFilter (if (0 <? length tags)%nat then Some tags else None)
           (if (0 <? length exclude)%nat then Some exclude else None)
           (Some orientation).

(** Lines 48-109: the plan for the selected record. *)
Definition plan_of (req : RandomRequest) (image : ImageMetadata) : Plan :=
  let urls := buildImageUrls lib (R2_PUBLIC_URL env) image (url_options image) in
  plan image urls (q_format req) (h_accept req).

Definition random_body (req : RandomRequest) : M Response :=
  image <- metadata_getRandomImage (filter_of req) ;;
  match image with
  | None => return_ (errorResponse "No images found matching criteria" (Some 404))
  | Some image => serve (plan_of req image)
  end.

Definition randomHandler (req : RandomRequest) (w : World)
  : Response * World * list Event :=
  run (random_body req) (errorResponse "Failed to get random image" None) w.

(** ** The cleanup handler, [cleanupHandler] *)

(** [await metadata.getExpiredImages()]. *)
Definition metadata_getExpiredImages : M (list ImageMetadata) :=
  emit EvListExpired ;;;
  match getExpiredImages env with
  | Some l => ret l
  | None => throw
  end.

(** [await storage.deleteMany(keys)]. *)
Definition storage_deleteMany (keys : list string) : M unit :=
  if deleteMany_ok env keys
  then w <- get_world ;;
       set_world (mkWorld (foldr delete (bucket w) keys) (db w)) ;;;
       emit (EvDeleteMany keys true)
  else emit (EvDeleteMany keys false) ;;; throw.

(** [await metadata.deleteImage(id)]. *)
Definition metadata_deleteImage (i : string) : M unit :=
  if deleteImage_ok env i
  then w <- get_world ;;
       set_world (mkWorld (bucket w)
                          (List.filter (fun r => negb (String.eqb (id r) i)) (db w))) ;;;
       emit (EvDeleteImage i true)
  else emit (EvDeleteImage i false) ;;; throw.

(** Lines 81-83. *)
Definition keysToDelete (image : ImageMetadata) : list string :=
  [paths_original (paths image)]
  ++ (if truthy (paths_webp (paths image)) then [paths_webp (paths image)] else [])
  ++ (if truthy (paths_avif (paths image)) then [paths_avif (paths image)] else []).

(** Lines 79-93: one iteration, with its own [try]/[catch]. *)
Definition cleanup_item (image : ImageMetadata) (deletedCount : Z) : M Z :=
  try_catch
    (storage_deleteMany (keysToDelete image) ;;;
     metadata_deleteImage (id image) ;;;
     ret (deletedCount + 1))
    (ret deletedCount).

Fixpoint cleanup_loop (images : list ImageMetadata) (deletedCount : Z) : M Z :=
  match images with
  | [] => ret deletedCount
  | image :: rest =>
      c <- cleanup_item image deletedCount ;;
      cleanup_loop rest c
  end.

Definition cleanup_body : M Response :=
  expiredImages <- metadata_getExpiredImages ;;
  deletedCount <- cleanup_loop expiredImages 0 ;;
  ret (successResponse (PCleanup deletedCount)).

Definition cleanupHandler (w : World) : Response * World * list Event :=
  run cleanup_body (errorResponse "Cleanup failed" None) w.

End Handlers.


(** * Vocabulary of the specification *)

(** ** Retrieval *)

(** The explicit request as the specification reads it: one of the three
    format names, or no usable request. *)
Definition explicit_format (formatParam : option string) : option Target :=
  match formatParam with
  | Some f =>
      if decide (f = "original") then Some original
      else if decide (f = "webp") then Some webp
      else if decide (f = "avif") then Some avif
      else None
  | None => None
  end.

(** [s.includes(sub)]. *)
Fixpoint includes (sub s : string) : bool :=
  String.prefix sub s
  || match s with
     | String _ rest => includes sub rest
     | EmptyString => false
     end.

(** Does the capability signal (the Accept header) list a MIME type. *)
Definition accepts (acceptHeader : option string) (mime : string) : bool :=
  match acceptHeader with
  | Some h => includes mime h
  | None => false
  end.

(** Modelled from the spec: [getBestFormat] of [utils/validation] is imported
    by the retrieval handler but is not among the sources.  Section 4.5 gives
    its contract: the best encoding the client's capability signal supports,
    preferring avif over webp over original. *)
Definition getBestFormat_spec (acceptHeader : option string) : Target :=
  if accepts acceptHeader "image/avif" then avif
  else if accepts acceptHeader "image/webp" then webp
  else original.

(** The same request without its [format] parameter. *)
Definition without_format (req : RandomRequest) : RandomRequest :=
  mkRandomRequest (q_tags req) (q_exclude req) (q_orientation req) None
    (h_userAgent req) (h_accept req).

Definition target_name (t : Target) : string :=
  match t with
  | original => "original"
  | webp => "webp"
  | avif => "avif"
  end.

(** The slot of a record and the URL built for a target. *)
Definition slot (image : ImageMetadata) (t : Target) : string :=
  match t with
  | original => paths_original (paths image)
  | webp => paths_webp (paths image)
  | avif => paths_avif (paths image)
  end.

Definition url_of (urls : Urls) (t : Target) : string :=
  match t with
  | original => urls_original urls
  | webp => urls_webp urls
  | avif => urls_avif urls
  end.

(** A marker alias: the slot of a derived target equals the original's
    location while the source has another format. *)
Definition is_marker (image : ImageMetadata) (t : Target) : Prop :=
  slot image t = paths_original (paths image) /\ format image <> target_name t.

(** The I/O performed to serve a plan. *)
Definition serve_trace (env : Env) (p : Plan) (w : World) : list Event :=
  (serve env p w).2.

(** Slot resolution as the specification words it, for a derived target. *)
Definition stated_slot_rule : Prop :=
  forall (lib : Lib) (env : Env) (image : ImageMetadata) (urls : Urls)
         (t : Target) (w : World),
    t <> original ->
    paths_original (paths image) <> "" ->
    let tr := serve_trace env (plan_for lib image urls t) w in
    (slot image t = "" -> tr = [EvGet (paths_original (paths image))]) /\
    (is_marker image t -> exists url, tr = [EvFetch url]) /\
    (slot image t <> "" -> ~ is_marker image t -> tr = [EvGet (slot image t)]).

(** An error response with HTTP status 404. *)
Definition is_404 (r : Response) : bool :=
  match r with
  | errorResponse _ (Some 404) => true
  | _ => false
  end.

(** No record satisfies the filter. *)
Definition NoMatch (lib : Lib) (env : Env) (req : RandomRequest) : Prop :=
  getRandomImage env (filter_of lib req) = Some None.

(** The plan names an object-store key and the store has no such object. *)
Definition ObjectMissing (lib : Lib) (env : Env) (req : RandomRequest) (w : World)
  : Prop :=
  exists image key,
    getRandomImage env (filter_of lib req) = Some (Some image) /\
    r2Key (plan_of lib env req image) = Some key /\ key <> "" /\
    get_ok env key = true /\ bucket w !! key = None.

(** The plan has no key and the transform fetch answers [u], which the
    predicate [bad] rejects. *)
Definition UpstreamRejected (bad : Upstream -> Prop)
    (lib : Lib) (env : Env) (req : RandomRequest) : Prop :=
  exists image u,
    getRandomImage env (filter_of lib req) = Some (Some image) /\
    (r2Key (plan_of lib env req image) = None \/
     r2Key (plan_of lib env req image) = Some "") /\
    fetch env (targetUrl (plan_of lib env req image)) = Some u /\
    bad u.

Definition non_success (u : Upstream) : Prop := up_ok u = false.
Definition unusable (u : Upstream) : Prop := up_ok u = false \/ up_body u = None.

(** The three situations as the specification lists them. *)
Definition stated_not_found_rule : Prop :=
  forall (lib : Lib) (env : Env) (req : RandomRequest) (w : World),
    is_404 (response (randomHandler lib env req w)) = true <->
    NoMatch lib env req \/ ObjectMissing lib env req w \/
    UpstreamRejected non_success lib env req.

(** ** Cleanup *)

(** Both deletions of one expired image succeed. *)
Definition swept (env : Env) (image : ImageMetadata) : bool :=
  deleteMany_ok env (keysToDelete image) && deleteImage_ok env (id image).

(** The I/O of one iteration of the sweep: the bytes first, the row only
    after the bytes are gone. *)
Definition sweep_events (env : Env) (image : ImageMetadata) : list Event :=
  EvDeleteMany (keysToDelete image) (deleteMany_ok env (keysToDelete image))
  :: (if deleteMany_ok env (keysToDelete image)
      then [EvDeleteImage (id image) (deleteImage_ok env (id image))]
      else []).

(** ** Upload *)

(** The declared Content-Length parses to a number above the maximum. *)
Definition exceeds_declared (h : option string) : bool :=
  match h with
  | Some s => match parseInt s with
              | Some n => n >? MAX_FILE_SIZE
              | None => false
              end
  | None => false
  end.

(** The request passes validation: its form carries [file], inspection of
    the bytes detects [info], and nothing is rejected. *)
Record Accepted (lib : Lib) (req : UploadRequest) (fd : FormData)
    (file : File) (info : ImageInfo) : Prop := mkAccepted {
  acc_declared : exceeds_declared (req_contentLength req) = false;
  acc_body : req_body req = Some fd;
  acc_file : formData_get fd "image" = Some (EntryFile file);
  acc_size : file_size file <= MAX_FILE_SIZE;
  acc_info : getImageInfo lib (file_data file) = Some info;
  acc_supported : isSupportedFormat lib (info_format info) = true
}.

(** What the upload handler reads from an accepted form. *)
Definition options_of (lib : Lib) (fd : FormData) : CompressionOptions :=
  parseCompressionOptions lib fd.

Definition wantsWebp (lib : Lib) (fd : FormData) : bool :=
  not_false (generateWebp (options_of lib fd)).

Definition wantsAvif (lib : Lib) (fd : FormData) : bool :=
  not_false (generateAvif (options_of lib fd)).

(** The [expiryMinutes] of an accepted form. *)
Definition minutes_of (lib : Lib) (fd : FormData) : Z :=
  parseNumber lib (formData_get fd "expiryMinutes") 0.

(** The rest of the handler once the request is accepted. *)
Definition store_accepted (lib : Lib) (env : Env) (fd : FormData) (file : File)
    (info : ImageInfo) : M Response :=
  store_image lib env file info
    (parseTags lib (formData_get fd "tags"))
    (minutes_of lib fd)
    (options_of lib fd).

(** The expiry the upload handler computes from [expiryMinutes]. *)
Definition expiry_of (env : Env) (expiryMinutes : Z) : option Z :=
  if expiryMinutes >? 0 then Some (now env + expiryMinutes * 60 * 1000) else None.

(** The expiry is a valid date, so that it can be rendered: there is none,
    or its time value is within the range of [Date]. *)
Definition expiry_valid (env : Env) (expiryMinutes : Z) : bool :=
  if expiryMinutes >? 0
  then valid_date (now env + expiryMinutes * 60 * 1000)
  else true.

(** The record an accepted upload saves when its variants end up as [l]. *)
Definition record_of (lib : Lib) (env : Env) (fd : FormData) (file : File)
    (info : ImageInfo) (l : Locals) : ImageMetadata :=
  build_metadata env file info
    (parseTags lib (formData_get fd "tags"))
    (expiry_of env (minutes_of lib fd)) l.

(** A record stored as it is: the slot of the source's own format is the
    original's location with the original's size, the other derived slots
    are empty with size 0. *)
Definition stored_as_is (fmt orig : string) (size : Z) (r : ImageMetadata) : Prop :=
  paths_original (paths r) = orig /\ sizes_original (sizes r) = size /\
  (fmt = "webp" ->
     paths_webp (paths r) = orig /\ sizes_webp (sizes r) = size /\
     paths_avif (paths r) = "" /\ sizes_avif (sizes r) = 0) /\
  (fmt = "avif" ->
     paths_avif (paths r) = orig /\ sizes_avif (sizes r) = size /\
     paths_webp (paths r) = "" /\ sizes_webp (sizes r) = 0) /\
  (fmt = "gif" ->
     paths_webp (paths r) = "" /\ sizes_webp (sizes r) = 0 /\
     paths_avif (paths r) = "" /\ sizes_avif (sizes r) = 0).

(** A record whose wanted derived slots are marker aliases of size 0 and
    whose unwanted ones are empty. *)
Definition marked (wantWebp wantAvif : bool) (orig : string) (r : ImageMetadata)
  : Prop :=
  paths_original (paths r) = orig /\
  paths_webp (paths r) = (if wantWebp then orig else "") /\
  sizes_webp (sizes r) = 0 /\
  paths_avif (paths r) = (if wantAvif then orig else "") /\
  sizes_avif (sizes r) = 0.

(** Source formats that are stored as they are. *)
Definition pass_through_format (fmt : string) : bool :=
  String.eqb fmt "gif" || String.eqb fmt "webp" || String.eqb fmt "avif".

(** The locations allocated for an upload. *)
Definition allocated (lib : Lib) (env : Env) (info : ImageInfo) : Paths :=
  generatePaths lib (generateImageId env) (info_orientation info) (info_format info).

(** The object-store locations a record references. *)
Definition locations (r : ImageMetadata) : list string :=
  paths_original (paths r)
  :: List.filter truthy [paths_webp (paths r); paths_avif (paths r)].

(** Every record saved in a trace has all its locations written before:
    [written] collects the keys of the uploads that completed so far. *)
Fixpoint saves_follow_writes (written : list string) (t : list Event) : bool :=
  match t with
  | [] => true
  | EvPutDone k :: rest => saves_follow_writes (k :: written) rest
  | EvSaveImage r :: rest =>
      forallb (fun k => existsb (String.eqb k) written) (locations r)
      && saves_follow_writes written rest
  | _ :: rest => saves_follow_writes written rest
  end.

(** Is the response a successful upload. *)
Definition is_success (r : Response) : bool :=
  match r with
  | successResponse (PUpload _) => true
  | _ => false
  end.

(** On the transcoding path, what the specification says about failures:
    when the original's write and the metadata save succeed, the upload
    succeeds. *)
Definition stated_recovery : Prop :=
  forall (lib : Lib) (env : Env) (req : UploadRequest) (w : World)
         (fd : FormData) (file : File) (info : ImageInfo)
         (compress : Blob -> string -> CompressionOptions -> option CompressionResult),
    Accepted lib req fd file info ->
    pass_through_format (info_format info) = false ->
    IMAGES env = Some compress ->
    file_size file <= CLOUDFLARE_IMAGES_MAX_BYTES ->
    upload_ok env (paths_original (allocated lib env info)) = true ->
    saveImage_ok env = true ->
    is_success (response (uploadSingleHandler lib env req w)) = true.

(** The write of a derived variant does not fail: it is not wanted, or the
    transcoder did not produce it, or its upload fulfils. *)
Definition derived_ok (env : Env) (want : bool) (v : option Encoded) (key : string)
  : bool :=
  if want then match v with Some _ => upload_ok env key | None => true end
  else true.

(** On the transcoding path, nothing the handler awaits fails: the write of
    the original, the transcoder call, the writes of the derived variants
    and the metadata save. *)
Definition nothing_fails (env : Env) (orig : string) (gp : Paths)
    (wantW wantA : bool) (result : option CompressionResult) : bool :=
  upload_ok env orig
  && match result with
     | Some cr => derived_ok env wantW (cr_webp cr) (paths_webp gp)
                  && derived_ok env wantA (cr_avif cr) (paths_avif gp)
     | None => false
     end
  && saveImage_ok env.

(** How a derived slot and its size end up on the transcoding path: empty
    when the variant is not wanted, the marker alias with size 0 when the
    transcoder did not produce it, the allocated location with the encoded
    size when it did. *)
Definition derived_slot (want : bool) (v : option Encoded) (key orig : string)
    (slot : string) (size : Z) : Prop :=
  (want = false -> slot = "" /\ size = 0) /\
  (want = true -> v = None -> slot = orig /\ size = 0) /\
  (want = true -> forall e, v = Some e -> key <> "" ->
     slot = key /\ size = enc_size e).

(** ** Outcomes of the upload stages *)

(** Prefixing the events of an outcome. *)
Definition after (pre : list Event) (o : Response * World * list Event)
  : Response * World * list Event :=
  (o.1.1, o.1.2, pre ++ o.2).

(** The store after [key] has been written. *)
Definition written (w : World) (key : string) (data : Blob) : World :=
  mkWorld (<[key := data]> (bucket w)) (db w).

(** The store after [r] has been saved. *)
Definition saved (w : World) (r : ImageMetadata) : World :=
  mkWorld (bucket w) (db w ++ [r]).

(** The locals after the pass-through branch. *)
Definition as_is (file : File) (fmt : string) (l0 : Locals) : Locals :=
  let l1 := if String.eqb fmt "webp"
            then set_webpSize (set_webp l0 (paths_original (l_paths l0))) (file_size file)
            else l0 in
  if String.eqb fmt "avif"
  then set_avifSize (set_avif l1 (paths_original (l_paths l1))) (file_size file)
  else l1.

(** The locals after the skip branch. *)
Definition with_markers (o : CompressionOptions) (l0 : Locals) : Locals :=
  let l1 := if not_false (generateWebp o)
            then set_webp l0 (paths_original (l_paths l0)) else l0 in
  if not_false (generateAvif o)
  then set_avif l1 (paths_original (l_paths l1)) else l1.

(** ** Sample data *)

Module Sample.

(** A format inspector that looks at the first byte only. *)
Definition sniff (b : Blob) : option ImageInfo :=
  match b with
  | Byte.x89 :: _ => Some (mkImageInfo "png" 800 600 "landscape")
  | Byte.x47 :: _ => Some (mkImageInfo "gif" 2000 1000 "landscape")
  | Byte.x52 :: _ => Some (mkImageInfo "webp" 500 800 "portrait")
  | Byte.x00 :: _ => Some (mkImageInfo "avif" 500 800 "portrait")
  | _ => None
  end.

(** URLs: the stored object for a concrete slot, a transform URL for a
    wanted variant without one, nothing for an unwanted variant. *)
Definition variant_url (base : string) (name : string) (want : option bool)
    (slot orig : string) : string :=
  if not_false want then
    if truthy slot && negb (String.eqb slot orig)
    then base +:+ "/" +:+ slot
    else base +:+ "/cdn-cgi/image/format=" +:+ name +:+ "/" +:+ orig
  else "".

Definition sample_urls (base : string) (image : ImageMetadata)
    (o : CompressionOptions) : Urls :=
  mkUrls (base +:+ "/" +:+ paths_original (paths image))
         (variant_url base "webp" (generateWebp o)
            (paths_webp (paths image)) (paths_original (paths image)))
         (variant_url base "avif" (generateAvif o)
            (paths_avif (paths image)) (paths_original (paths image))).

Definition lib : Lib :=
  mkLib sniff
    (fun f => existsb (String.eqb f) ["jpeg"; "jpg"; "png"; "gif"; "webp"; "avif"])
    (fun f => "image/" +:+ f)
    (fun i o f => mkPaths ("original/" +:+ o +:+ "/" +:+ i +:+ "." +:+ f)
                          ("webp/" +:+ i +:+ ".webp")
                          ("avif/" +:+ i +:+ ".avif"))
    (fun _ => [])
    (fun _ d => d)
    (fun _ => mkCompressionOptions None None)
    sample_urls
    (fun _ => false)
    getBestFormat_spec.

(** A transcoder that produces both variants. *)
Definition both (_ : Blob) (_ : string) (_ : CompressionOptions)
  : option CompressionResult :=
  Some (mkCompressionResult (Some (mkEncoded [Byte.x01] 1))
                            (Some (mkEncoded [Byte.x02; Byte.x03] 2))).

(** A transcoder that produces the webp variant only. *)
Definition webp_only (_ : Blob) (_ : string) (_ : CompressionOptions)
  : option CompressionResult :=
  Some (mkCompressionResult (Some (mkEncoded [Byte.x01] 1)) None).

(** A png above the transcoder limit: its webp slot is a marker alias, its
    avif slot is empty. *)
Definition png_record : ImageMetadata :=
  mkImageMetadata "id0" "big.png" 0 None "landscape" [] "png" 800 600
    (mkPaths "original/landscape/id0.png" "original/landscape/id0.png" "")
    (mkSizes (11 * 1024 * 1024) 0 0).

(** An environment in which nothing fails; [tr] is the transcoder binding,
    [wfail] a key whose write fails, [row] what the random selection
    answers and [up] what the transform endpoint answers. *)
Definition env (tr : option (Blob -> string -> CompressionOptions
                             -> option CompressionResult))
    (wfail : string) (row : option ImageMetadata) (up : Upstream)
    (expired : list ImageMetadata) (dfail : string) : Env :=
  mkEnv tr "https://cdn.example" "id1" 1000
    (fun k => negb (String.eqb k wfail)) true
    (fun _ => Some row) (fun _ => true) (fun _ => Some up)
    (Some expired)
    (fun _ => true) (fun i => negb (String.eqb i dfail)).

Definition ok_upstream : Upstream :=
  mkUpstream true 200 (Some [Byte.x09]) (Some "image/avif").

Definition env_ok := env (Some both) "" None ok_upstream [] "".

Definition empty_world : World := mkWorld ∅ [].

(** A 3-byte png. *)
Definition png_file : File := mkFile "a.png" 3 [Byte.x89; Byte.x50; Byte.x4e].

(** A png declared as 11MB. *)
Definition big_png_file : File :=
  mkFile "big.png" (11 * 1024 * 1024) [Byte.x89; Byte.x50; Byte.x4e].

Definition webp_file : File := mkFile "a.webp" 4 [Byte.x52; Byte.x49; Byte.x46; Byte.x46].

Definition upload_of (f : File) (len : string) : UploadRequest :=
  mkUploadRequest (Some len) (Some [("image", EntryFile f)]).

Definition random_req (fmt : option string) (accept : option string) : RandomRequest :=
  mkRandomRequest None None None fmt None accept.

(** Three expired records; the row of the second cannot be deleted. *)
Definition expired_a : ImageMetadata :=
  mkImageMetadata "a" "a.png" 0 (Some 1) "landscape" [] "png" 8 6
    (mkPaths "original/landscape/a.png" "webp/a.webp" "avif/a.avif")
    (mkSizes 30 10 9).

Definition expired_b : ImageMetadata :=
  mkImageMetadata "b" "b.gif" 0 (Some 1) "landscape" [] "gif" 8 6
    (mkPaths "original/landscape/b.gif" "" "") (mkSizes 30 0 0).

Definition expired_c : ImageMetadata :=
  mkImageMetadata "c" "c.webp" 0 (Some 1) "portrait" [] "webp" 6 8
    (mkPaths "original/portrait/c.webp" "original/portrait/c.webp" "")
    (mkSizes 30 30 0).

Definition env_sweep : Env :=
  env None "" None ok_upstream [expired_a; expired_b; expired_c] "b".

End Sample.

(** * Further vocabulary *)

(** The keys of the uploads issued in a trace, in order. *)
Fixpoint puts (t : list Event) : list string :=
  match t with
  | [] => []
  | EvPutStart k :: rest => k :: puts rest
  | _ :: rest => puts rest
  end.

(** The upload is on the transcoding path: a transcodable format, a
    configured transcoder and a file within its input limit. *)
Definition on_transcoding (env : Env) (file : File) (info : ImageInfo) : bool :=
  negb (pass_through_format (info_format info))
  && match IMAGES env with Some _ => true | None => false end
  && (file_size file <=? CLOUDFLARE_IMAGES_MAX_BYTES).

(** The three locations allocated for an upload. *)
Definition allocated_keys (lib : Lib) (env : Env) (info : ImageInfo) : list string :=
  [paths_original (allocated lib env info);
   paths_webp (allocated lib env info);
   paths_avif (allocated lib env info)].

(** The generic failure of the retrieval handler's outer [catch]. *)
Definition random_failed : Response :=
  errorResponse "Failed to get random image" None.

(** The MIME type of a derived target. *)
Definition mime_of (t : Target) : string :=
  match t with
  | original => ""
  | webp => "image/webp"
  | avif => "image/avif"
  end.

(** The upload issued for a derived variant on the transcoding path: none
    unless the variant is wanted and the transcoder produced it. *)
Definition derived_put (want : bool) (v : option Encoded) (key : string)
  : list string :=
  if want then match v with Some _ => [key] | None => [] end else [].

(** A service call that the retrieval handler awaits rejects: the random
    selection, the read of the planned key, or the transform fetch. *)
Definition ServiceRejects (lib : Lib) (env : Env) (req : RandomRequest) : Prop :=
  getRandomImage env (filter_of lib req) = None \/
  (exists image key,
     getRandomImage env (filter_of lib req) = Some (Some image) /\
     r2Key (plan_of lib env req image) = Some key /\ key <> "" /\
     get_ok env key = false) \/
  (exists image,
     getRandomImage env (filter_of lib req) = Some (Some image) /\
     (r2Key (plan_of lib env req image) = None \/
      r2Key (plan_of lib env req image) = Some "") /\
     fetch env (targetUrl (plan_of lib env req image)) = None).

(** The Content-Type of a proxied response: the upstream's own when it has a
    non-empty one, else the fallback. *)
Definition proxied_type (u : Upstream) (fallback : string) : string :=
  match up_contentType u with
  | Some ct => if truthy ct then ct else fallback
  | None => fallback
  end.

(** The stores after one iteration of the cleanup sweep. *)
Definition sweep_world (env : Env) (image : ImageMetadata) (w : World) : World :=
  if deleteMany_ok env (keysToDelete image) then
    let w1 := mkWorld (foldr delete (bucket w) (keysToDelete image)) (db w) in
    if deleteImage_ok env (id image)
    then mkWorld (bucket w1)
           (List.filter (fun r => negb (String.eqb (id r) (id image))) (db w1))
    else w1
  else w.

(** The stores after the sweep of a list of images. *)
Definition sweep_all (env : Env) (images : list ImageMetadata) (w : World) : World :=
  fold_left (fun w' image => sweep_world env image w') images w.

(** A row that a sweep of [images] keeps: no image for which both deletions
    succeeded has its identifier. *)
Definition kept_row (env : Env) (images : list ImageMetadata) (r : ImageMetadata)
    : bool :=
  negb (existsb (fun image => swept env image && String.eqb (id r) (id image))
          images).

(** ** The configuration handler, [configHandler] *)

(** A JSON value; a number is kept as the decimal [m * 10^e] its text
    denotes. *)
#[local] Unset Elimination Schemes.
Inductive Json :=
| JNull
| JBool (b : bool)
| JNum (m e : Z)
| JStr (s : string)
| JArr (items : list Json)
| JObj (fields : list (string * Json)).
#[local] Set Elimination Schemes.

(** A configuration object: its own properties. *)
Abbreviation ConfigObject := (gmap string Json).

(** [DEFAULT_CONFIG]. *)
Definition DEFAULT_CONFIG : ConfigObject :=
  {[ "maxUploadCount" := JNum 20 0;
     "maxFileSize" := JNum (70 * 1024 * 1024) 0;
     "supportedFormats" :=
       JArr [JStr "jpeg"; JStr "jpg"; JStr "png"; JStr "gif"; JStr "webp"; JStr "avif"];
     "imageQuality" := JNum 80 0 ]}.

(** What the configuration handler imports: [JSON.parse] ([None]: it
    throws), the cache key [CacheKeys.config()] and [CACHE_TTL.CONFIG]. *)
Record ConfigLib := mkConfigLib {
  JSON_parse : string -> option Json;
  config_key : string;
  config_ttl : Z
}.

(** The services behind one configuration request: whether the cache read
    and write fulfil, and what the query on the [config] table answers
    ([None]: it rejects; the [results] field may be undefined). *)
Record ConfigEnv := mkConfigEnv {
  cache_get_ok : bool;
  config_query : option (option (list (string * string)));
  cache_set_ok : bool
}.

(** The I/O of the configuration handler. *)
Inductive ConfigEvent :=
| CfCacheGet (key : string) (ok : bool)
| CfQuery (ok : bool)
| CfCacheSet (key : string) (data : ConfigObject) (ttl : Z) (ok : bool).

(** Lines 45-49: the parsed value of a row, or the raw string when it is not
    JSON. *)
Definition row_value (cl : ConfigLib) (value : string) : Json :=
  match JSON_parse cl value with
  | Some v => v
  | None => JStr value
  end.

(** [config[key] = v] on an object created by a spread: an own property is
    set, except for the key [__proto__], which reaches the prototype setter
    and leaves the own properties as they are. *)
Definition assign (config : ConfigObject) (key : string) (v : Json) : ConfigObject :=
  if String.eqb key "__proto__" then config else <[key := v]> config.

(** Lines 43-50: the rows applied in order to a copy of the defaults. *)
Definition apply_rows (cl : ConfigLib) (rows : list (string * string))
  : ConfigObject :=
  fold_left (fun config row => assign config row.1 (row_value cl row.2))
    rows DEFAULT_CONFIG.

(** Lines 42-54. *)
Definition responseData_of (cl : ConfigLib) (results : option (list (string * string)))
  : ConfigObject :=
  match results with
  | Some (row :: rows) => apply_rows cl (row :: rows)
  | Some [] | None => DEFAULT_CONFIG
  end.

(** [configHandler]: the configuration it answers with (every [return] of
    the handler is a [successResponse]), the cache afterwards and the I/O.
    The map is what the cache service holds while this request runs: an
    entry is there when [cache.get] returns it. The time to live is passed
    on to [cache.set] and recorded in the event; how long the service keeps
    an entry is its own business and is not modelled, so the map says
    nothing about what a later request is returned. *)
Definition configHandler (cl : ConfigLib) (ce : ConfigEnv)
    (kv : gmap string ConfigObject)
  : ConfigObject * gmap string ConfigObject * list ConfigEvent :=
  let cacheKey := config_key cl in
  if cache_get_ok ce then
    match kv !! cacheKey with
    | Some cached => (cached, kv, [CfCacheGet cacheKey true])
    | None =>
        match config_query ce with
        | Some results =>
            let responseData := responseData_of cl results in
            if cache_set_ok ce
            then (responseData, <[cacheKey := responseData]> kv,
                  [CfCacheGet cacheKey true; CfQuery true;
                   CfCacheSet cacheKey responseData (config_ttl cl) true])
            else (DEFAULT_CONFIG, kv,
                  [CfCacheGet cacheKey true; CfQuery true;
                   CfCacheSet cacheKey responseData (config_ttl cl) false])
        | None =>
            (DEFAULT_CONFIG, kv, [CfCacheGet cacheKey true; CfQuery false])
        end
    end
  else (DEFAULT_CONFIG, kv, [CfCacheGet cacheKey false]).

(** The value of the last row for a key, if any. *)
Fixpoint last_row (rows : list (string * string)) (k : string) : option string :=
  match rows with
  | [] => None
  | (k', v) :: rest =>
      match last_row rest k with
      | Some v' => Some v'
      | None => if String.eqb k' k then Some v else None
      end
  end.

(** Some call that the configuration handler awaits fails. *)
Definition config_fails (ce : ConfigEnv) (kv : gmap string ConfigObject)
    (cl : ConfigLib) : Prop :=
  cache_get_ok ce = false \/
  (kv !! config_key cl = None /\
   (config_query ce = None \/ cache_set_ok ce = false)).

(** ** Further sample data *)

Module Sample2.

(** An inspector that also recognises bmp, which is not supported. *)
Definition sniff_bmp (b : Blob) : option ImageInfo :=
  match b with
  | Byte.x42 :: _ => Some (mkImageInfo "bmp" 1 1 "landscape")
  | _ => Sample.sniff b
  end.

Definition lib_bmp : Lib :=
  mkLib sniff_bmp
    (isSupportedFormat Sample.lib) (getContentType Sample.lib)
    (generatePaths Sample.lib) (parseTags Sample.lib)
    (parseNumber Sample.lib) (parseCompressionOptions Sample.lib)
    (buildImageUrls Sample.lib) (isMobileDevice Sample.lib)
    (getBestFormat Sample.lib).

Definition junk_file : File := mkFile "notes.txt" 2 [Byte.x68; Byte.x69].
Definition bmp_file : File := mkFile "a.bmp" 2 [Byte.x42; Byte.x4d].
Definition huge_file : File := mkFile "huge.png" (70 * 1024 * 1024 + 1) [Byte.x89].

(** The sample helpers with a form parser that turns avif off. *)
Definition lib_no_avif : Lib :=
  mkLib Sample.sniff (isSupportedFormat Sample.lib)
    (getContentType Sample.lib) (generatePaths Sample.lib)
    (parseTags Sample.lib) (parseNumber Sample.lib)
    (fun _ => mkCompressionOptions None (Some false))
    (buildImageUrls Sample.lib) (isMobileDevice Sample.lib)
    (getBestFormat Sample.lib).

(** Every write succeeds, the metadata save fails. *)
Definition env_save_fails : Env :=
  mkEnv (Some Sample.both) "https://cdn.example" "id1" 1000
    (fun _ => true) false (fun _ => Some None) (fun _ => true)
    (fun _ => None) (Some []) (fun _ => true) (fun _ => true).

(** A concrete avif variant next to a jpeg original. *)
Definition jpeg_record : ImageMetadata :=
  mkImageMetadata "j" "j.jpg" 0 None "landscape" [] "jpeg" 800 600
    (mkPaths "original/landscape/j.jpeg" "webp/j.webp" "avif/j.avif")
    (mkSizes 100 40 30).

Definition jpeg_world : World :=
  mkWorld {["original/landscape/j.jpeg" := [Byte.xff; Byte.xd8];
            "avif/j.avif" := [Byte.x00; Byte.x01]]} [jpeg_record].

(** The selection answers the jpeg record; the transform endpoint answers
    [up]. *)
Definition env_jpeg (up : Upstream) : Env :=
  Sample.env None "" (Some jpeg_record) up [] "".

(** The same, with an object store whose reads reject. *)
Definition env_get_fails : Env :=
  mkEnv None "https://cdn.example" "id1" 1000 (fun _ => true) true
    (fun _ => Some (Some jpeg_record)) (fun _ => false) (fun _ => None)
    (Some []) (fun _ => true) (fun _ => true).

(** The list of expired images cannot be obtained. *)
Definition env_get_fails_list : Env :=
  mkEnv None "https://cdn.example" "id1" 1000 (fun _ => true) true
    (fun _ => Some None) (fun _ => true) (fun _ => None)
    None (fun _ => true) (fun _ => true).

(** A successful upstream answer without a Content-Type. *)
Definition untyped_upstream : Upstream :=
  mkUpstream true 200 (Some [Byte.x0a]) None.

(** The store before the sweep of the three expired sample records: their
    objects, and one object and one row that are not expired. *)
Definition sweep_start : World :=
  mkWorld {["original/landscape/a.png" := [Byte.x01];
            "webp/a.webp" := [Byte.x02];
            "avif/a.avif" := [Byte.x03];
            "original/landscape/b.gif" := [Byte.x04];
            "original/portrait/c.webp" := [Byte.x05];
            "original/landscape/j.jpeg" := [Byte.xff; Byte.xd8]]}
    [Sample.expired_a; Sample.expired_b; jpeg_record; Sample.expired_c].

(** A JSON reader that knows two texts. *)
Definition tiny_json (s : string) : option Json :=
  if String.eqb s "5" then Some (JNum 5 0)
  else if String.eqb s "90" then Some (JNum 90 0)
  else None.

Definition config_lib : ConfigLib := mkConfigLib tiny_json "config" 3600.

(** Three rows: the upload count is set twice, the quality is not JSON. *)
Definition config_rows : list (string * string) :=
  [("maxUploadCount", "5"); ("imageQuality", "high"); ("maxUploadCount", "90")].

Definition config_env : ConfigEnv := mkConfigEnv true (Some (Some config_rows)) true.

Definition empty_cache : gmap string ConfigObject := ∅.

(** The database answers the three rows, the cache write rejects. *)
Definition config_env_unwritable : ConfigEnv :=
  mkConfigEnv true (Some (Some config_rows)) false.

(** A request without a Content-Length header. *)
Definition bare_upload (f : File) : UploadRequest :=
  mkUploadRequest None (Some [("image", EntryFile f)]).

(** A number parser that reads the digits of a text field. *)
Definition digits_number (e : option FormEntry) (d : Z) : Z :=
  match e with
  | Some (EntryString s) =>
      match parseInt s with
      | Some n => n
      | None => d
      end
  | _ => d
  end.

Definition lib_numbers : Lib :=
  mkLib Sample.sniff (isSupportedFormat Sample.lib)
    (getContentType Sample.lib) (generatePaths Sample.lib)
    (parseTags Sample.lib) digits_number
    (parseCompressionOptions Sample.lib)
    (buildImageUrls Sample.lib) (isMobileDevice Sample.lib)
    (getBestFormat Sample.lib).

(** The form of an upload of the gif that asks for an expiry some 285000
    years ahead. *)
Definition far_expiry_form : FormData :=
  [("image", EntryFile (mkFile "a.gif" 1 [Byte.x47]));
   ("expiryMinutes", EntryString "150000000000")].

Definition far_expiry_upload : UploadRequest :=
  mkUploadRequest (Some "1") (Some far_expiry_form).

End Sample2.


(** * Properties *)

(** ** Strings and truthiness *)

Lemma truthy_true (s : string) : truthy s = true <-> s <> "".
Proof.
  unfold truthy. rewrite negb_true_iff. apply String.eqb_neq.
Qed.

Lemma truthy_false (s : string) : truthy s = false <-> s = "".
Proof.
  unfold truthy. rewrite negb_false_iff. apply String.eqb_eq.
Qed.

Lemma eqb_ne (a b : string) : a <> b -> String.eqb a b = false.
Proof. apply String.eqb_neq. Qed.

Lemma str_or_truthy (a b : string) : a <> "" -> str_or a b = a.
Proof.
  intros Ha. unfold str_or. apply truthy_true in Ha. now rewrite Ha.
Qed.

(** ** Format negotiation *)

Lemma select_format_explicit lib formatParam acceptHeader t :
  explicit_format formatParam = Some t ->
  select_format lib formatParam acceptHeader = t.
Proof.
  unfold explicit_format, select_format.
  destruct formatParam as [f|]; [|discriminate].
  repeat case_decide; intros [= <-]; subst; reflexivity.
Qed.

Lemma select_format_implicit lib formatParam acceptHeader :
  explicit_format formatParam = None ->
  select_format lib formatParam acceptHeader = getBestFormat lib acceptHeader.
Proof.
  unfold explicit_format, select_format.
  destruct formatParam as [f|]; [|reflexivity].
  repeat case_decide; try discriminate. intros _.
  now rewrite !eqb_ne by assumption.
Qed.

(** C5. Target format selection: a gif record is always served as its
    original (the original's key and URL, whatever is requested); any other
    record is served in the explicitly requested format when the [format]
    parameter is one of original, webp, avif; otherwise in the best format
    the Accept header supports, avif before webp before original. *)
Theorem target_format_selection (lib : Lib) (image : ImageMetadata) (urls : Urls)
    (formatParam acceptHeader : option string)
    (Hbest : forall a, getBestFormat lib a = getBestFormat_spec a) :
  let p := plan lib image urls formatParam acceptHeader in
  (format image = "gif" ->
     r2Key p = r2Key (plan_for lib image urls original) /\
     targetUrl p = targetUrl (plan_for lib image urls original) /\
     contentTypeFallback p = "image/gif") /\
  (format image <> "gif" ->
     (forall t, explicit_format formatParam = Some t ->
        p = plan_for lib image urls t) /\
     (explicit_format formatParam = None ->
        p = plan_for lib image urls
              (if accepts acceptHeader "image/avif" then avif
               else if accepts acceptHeader "image/webp" then webp
               else original))).
Proof.
  intros p. subst p. unfold plan. split.
  - intros ->. rewrite String.eqb_refl. simpl. auto.
  - intros Hgif. rewrite (eqb_ne _ _ Hgif). split.
    + intros t Ht. now rewrite (select_format_explicit _ _ _ _ Ht).
    + intros Hn. rewrite (select_format_implicit _ _ _ Hn), Hbest. reflexivity.
Qed.

(** The selection at work: a gif, an explicit request on a png, and an
    Accept header that lists both modern encodings. *)
Lemma target_format_selection_witness :
  let urls := Sample.sample_urls "https://cdn.example" Sample.png_record
                (mkCompressionOptions (Some true) (Some true)) in
  let accept := Some "image/avif,image/webp,*/*" in
  (format Sample.png_record <> "gif" ->
     (forall t, explicit_format (Some "webp") = Some t ->
        plan Sample.lib Sample.png_record urls (Some "webp") accept
        = plan_for Sample.lib Sample.png_record urls t) /\
     (explicit_format (Some "webp") = None ->
        plan Sample.lib Sample.png_record urls (Some "webp") accept
        = plan_for Sample.lib Sample.png_record urls
            (if accepts accept "image/avif" then avif
             else if accepts accept "image/webp" then webp
             else original))) /\
  plan Sample.lib Sample.png_record urls None accept
  = plan_for Sample.lib Sample.png_record urls avif.
Proof.
  intros urls accept. split.
  - apply (target_format_selection Sample.lib Sample.png_record urls
             (Some "webp") accept).
    intros a. reflexivity.
  - vm_compute. reflexivity.
Defined.

(** C10. A [format] query parameter that is none of original, webp, avif
    (the empty string and any other spelling included) is ignored: the
    format is chosen from the Accept header, and the whole response is the
    one the same request without the parameter gets. *)
Theorem unknown_format_param_ignored (lib : Lib) (env : Env)
    (req : RandomRequest) (w : World) (f : string) :
  q_format req = Some f ->
  f <> "original" -> f <> "webp" -> f <> "avif" ->
  select_format lib (q_format req) (h_accept req)
  = select_format lib None (h_accept req) /\
  select_format lib (q_format req) (h_accept req) = getBestFormat lib (h_accept req) /\
  randomHandler lib env req w = randomHandler lib env (without_format req) w.
Proof.
  intros Hf Ho Hw Ha.
  assert (Hsel : forall acc, select_format lib (Some f) acc = getBestFormat lib acc).
  { intros acc. unfold select_format. now rewrite !eqb_ne by assumption. }
  rewrite Hf, Hsel. repeat split.
  unfold randomHandler, random_body, plan_of, plan, without_format, filter_of.
  simpl. rewrite Hf, Hsel. reflexivity.
Qed.

Lemma unknown_format_param_ignored_witness :
  let req := Sample.random_req (Some "WEBP") (Some "image/avif") in
  select_format Sample.lib (q_format req) (h_accept req) = avif /\
  randomHandler Sample.lib Sample.env_ok req Sample.empty_world
  = randomHandler Sample.lib Sample.env_ok (without_format req) Sample.empty_world.
Proof.
  intros req.
  destruct (unknown_format_param_ignored Sample.lib Sample.env_ok req
              Sample.empty_world "WEBP") as (_ & H2 & H3);
    [reflexivity | discriminate | discriminate | discriminate |].
  split; [rewrite H2; reflexivity | exact H3].
Defined.

(** ** Slot resolution *)

Lemma serve_direct env p w key :
  r2Key p = Some key -> key <> "" -> serve_trace env p w = [EvGet key].
Proof.
  intros Hk Hne. unfold serve_trace, serve. rewrite Hk.
  apply truthy_true in Hne. rewrite Hne.
  unfold storage_get, bind, emit, get_world, ret, throw, return_.
  destruct (get_ok env key); [|reflexivity].
  destruct (bucket w !! key); reflexivity.
Qed.

Lemma serve_proxied env p w :
  r2Key p = None \/ r2Key p = Some "" ->
  serve_trace env p w = [EvFetch (targetUrl p)].
Proof.
  intros Hk. unfold serve_trace, serve.
  assert (Hp : (serve_proxy env p w).2 = [EvFetch (targetUrl p)]).
  { unfold serve_proxy, fetch_url, bind, emit, ret, throw, return_.
    destruct (fetch env (targetUrl p)) as [u|]; [|reflexivity].
    destruct (up_ok u), (up_body u); reflexivity. }
  destruct Hk as [-> | ->]; exact Hp.
Qed.

Lemma variant_key_no_url slot orig same :
  variant_key "" slot orig same = Some orig.
Proof. reflexivity. Qed.

Lemma variant_key_empty_slot url orig same :
  url <> "" -> variant_key url "" orig same = None.
Proof.
  intros Hu. unfold variant_key. apply truthy_true in Hu. now rewrite Hu.
Qed.

Lemma variant_key_marker url orig :
  url <> "" -> orig <> "" -> variant_key url orig orig false = None.
Proof.
  intros Hu Ho. unfold variant_key.
  apply truthy_true in Hu, Ho. now rewrite Hu, Ho, String.eqb_refl.
Qed.

Lemma variant_key_concrete url slot orig same :
  url <> "" -> slot <> "" -> (slot = orig -> same = true) ->
  variant_key url slot orig same = Some slot.
Proof.
  intros Hu Hs Hc. unfold variant_key.
  apply truthy_true in Hu, Hs. rewrite Hu, Hs. simpl.
  destruct (String.eqb_spec slot orig) as [He|He]; [|reflexivity].
  now rewrite (Hc He).
Qed.

Lemma plan_for_derived lib image urls t :
  t <> original ->
  r2Key (plan_for lib image urls t)
  = variant_key (url_of urls t) (slot image t) (paths_original (paths image))
      (String.eqb (format image) (target_name t)) /\
  targetUrl (plan_for lib image urls t)
  = str_or (url_of urls t) (urls_original urls).
Proof. destruct t; [congruence | split; reflexivity ..]. Qed.

(** C4, as the code has it. Once a target format is chosen: the original
    target, and a derived target for which no URL was built, are served by
    reading the original from the object store; otherwise (a URL was built
    for the derived target) an empty slot and a marker alias are served by
    fetching that URL, without reading the object store, and a concrete slot
    is read from the object store, without any fetch. *)
Theorem slot_resolution (lib : Lib) (env : Env) (image : ImageMetadata)
    (urls : Urls) (t : Target) (w : World) :
  paths_original (paths image) <> "" ->
  let tr := serve_trace env (plan_for lib image urls t) w in
  (t = original \/ url_of urls t = "" ->
     tr = [EvGet (paths_original (paths image))]) /\
  (t <> original -> url_of urls t <> "" ->
     slot image t = "" \/ is_marker image t ->
     tr = [EvFetch (url_of urls t)]) /\
  (t <> original -> url_of urls t <> "" ->
     slot image t <> "" -> ~ is_marker image t ->
     tr = [EvGet (slot image t)]).
Proof.
  intros Ho tr. subst tr. repeat split.
  - intros Hc. apply serve_direct; [|exact Ho].
    destruct (decide (t = original)) as [-> | Ht]; [reflexivity|].
    destruct Hc as [Hc | Hc]; [contradiction|].
    destruct (plan_for_derived lib image urls t Ht) as [-> _].
    rewrite Hc. apply variant_key_no_url.
  - intros Ht Hu Hs.
    destruct (plan_for_derived lib image urls t Ht) as [Hk Hurl].
    rewrite serve_proxied.
    + now rewrite Hurl, str_or_truthy.
    + left. rewrite Hk. destruct Hs as [-> | [-> Hf]].
      * now apply variant_key_empty_slot.
      * rewrite (eqb_ne _ _ Hf). now apply variant_key_marker.
  - intros Ht Hu Hs Hm.
    destruct (plan_for_derived lib image urls t Ht) as [Hk _].
    apply serve_direct; [|exact Hs]. rewrite Hk.
    apply variant_key_concrete; [exact Hu | exact Hs |].
    intros He. destruct (String.eqb_spec (format image) (target_name t)) as [_|Hf];
      [reflexivity|].
    exfalso. apply Hm. split; assumption.
Qed.

(** On the sample png, whose original exceeds the transcoder limit: the
    original target is read from the store; the marker webp slot and the
    empty avif slot are both proxied through the URLs built for them. *)
Lemma slot_resolution_witness :
  let image := Sample.png_record in
  let urls := buildImageUrls Sample.lib "https://cdn.example" image (url_options image) in
  serve_trace Sample.env_ok (plan_for Sample.lib image urls original) Sample.empty_world
  = [EvGet "original/landscape/id0.png"] /\
  serve_trace Sample.env_ok (plan_for Sample.lib image urls webp) Sample.empty_world
  = [EvFetch "https://cdn.example/cdn-cgi/image/format=webp/original/landscape/id0.png"] /\
  serve_trace Sample.env_ok (plan_for Sample.lib image urls avif) Sample.empty_world
  = [EvFetch "https://cdn.example/cdn-cgi/image/format=avif/original/landscape/id0.png"].
Proof.
  intros image urls.
  pose proof (slot_resolution Sample.lib Sample.env_ok image urls original
                Sample.empty_world ltac:(discriminate)) as (H1 & _ & _).
  pose proof (slot_resolution Sample.lib Sample.env_ok image urls webp
                Sample.empty_world ltac:(discriminate)) as (_ & H2 & _).
  pose proof (slot_resolution Sample.lib Sample.env_ok image urls avif
                Sample.empty_world ltac:(discriminate)) as (_ & H3 & _).
  split; [|split].
  - apply H1. left. reflexivity.
  - apply H2; [discriminate | discriminate | right; split; [reflexivity | discriminate]].
  - apply H3; [discriminate | discriminate | left; reflexivity].
Defined.

(** C4, as stated, fails: a png record whose original exceeds the transcoder
    limit and whose avif slot is empty still gets a transform URL for avif,
    and the handler proxies it instead of reading the original. *)
Lemma stated_slot_rule_fails : ~ stated_slot_rule.
Proof.
  intros H.
  pose (image := Sample.png_record).
  pose (urls := buildImageUrls Sample.lib "https://cdn.example" image (url_options image)).
  destruct (H Sample.lib Sample.env_ok image urls avif Sample.empty_world
              ltac:(discriminate) ltac:(discriminate)) as (He & _ & _).
  specialize (He eq_refl). vm_compute in He. discriminate He.
Qed.

(** ** Not-found responses *)

Lemma random_no_match lib env req w :
  getRandomImage env (filter_of lib req) = Some None ->
  response (randomHandler lib env req w)
  = errorResponse "No images found matching criteria" (Some 404).
Proof.
  intros H. unfold randomHandler, run, random_body, metadata_getRandomImage,
    bind, emit, ret, return_. now rewrite H.
Qed.

Lemma random_select_fails lib env req w :
  getRandomImage env (filter_of lib req) = None ->
  response (randomHandler lib env req w)
  = errorResponse "Failed to get random image" None.
Proof.
  intros H. unfold randomHandler, run, random_body, metadata_getRandomImage,
    bind, emit, throw. now rewrite H.
Qed.

(** With a record selected, the response is the one [serve] gives. *)
Lemma random_selected lib env req w image :
  getRandomImage env (filter_of lib req) = Some (Some image) ->
  response (randomHandler lib env req w)
  = response (run (serve env (plan_of lib env req image))
                (errorResponse "Failed to get random image" None) w).
Proof.
  intros H. unfold randomHandler, run, random_body, metadata_getRandomImage,
    bind, emit, ret. rewrite H. simpl.
  destruct (serve env (plan_of lib env req image) w) as [[[r|r|] w1] t1]; reflexivity.
Qed.

Lemma serve_with_key env p w e key :
  r2Key p = Some key -> key <> "" ->
  response (run (serve env p) e w)
  = if get_ok env key
    then match bucket w !! key with
         | Some body => rawResponse body (contentTypeFallback p)
         | None => not_found
         end
    else e.
Proof.
  intros Hk Hne. unfold run, serve. rewrite Hk.
  apply truthy_true in Hne. rewrite Hne.
  unfold storage_get, bind, emit, get_world, ret, throw, return_.
  destruct (get_ok env key); [|reflexivity].
  destruct (bucket w !! key); reflexivity.
Qed.

Lemma serve_without_key env p w e :
  r2Key p = None \/ r2Key p = Some "" ->
  response (run (serve env p) e w)
  = match fetch env (targetUrl p) with
    | Some u =>
        match up_ok u, up_body u with
        | true, Some body =>
            rawResponse body
              match up_contentType u with
              | Some ct => str_or ct (contentTypeFallback p)
              | None => contentTypeFallback p
              end
        | _, _ => not_found
        end
    | None => e
    end.
Proof.
  intros Hk.
  assert (Hp : response (run (serve_proxy env p) e w) = 
               match fetch env (targetUrl p) with
               | Some u =>
                   match up_ok u, up_body u with
                   | true, Some body =>
                       rawResponse body
                         match up_contentType u with
                         | Some ct => str_or ct (contentTypeFallback p)
                         | None => contentTypeFallback p
                         end
                   | _, _ => not_found
                   end
               | None => e
               end).
  { unfold run, serve_proxy, fetch_url, bind, emit, ret, throw, return_.
    destruct (fetch env (targetUrl p)) as [u|]; [|reflexivity].
    destruct (up_ok u), (up_body u); reflexivity. }
  unfold run, serve in *. destruct Hk as [-> | ->]; exact Hp.
Qed.

Lemma key_cases (k : option string) :
  (exists key, k = Some key /\ key <> "") \/ (k = None \/ k = Some "").
Proof.
  destruct k as [key|]; [|auto].
  destruct (decide (key = "")) as [-> | Hne]; [auto | left; eauto].
Qed.

(** C7, as the code has it. The retrieval answers with an HTTP 404 error in
    exactly these situations: no record matches the filter; the plan names an
    object-store key that the store does not hold; or the plan has no key and
    the transform fetch answers with a non-success status or without a
    body. *)
Theorem not_found_exactly (lib : Lib) (env : Env) (req : RandomRequest) (w : World) :
  is_404 (response (randomHandler lib env req w)) = true <->
  NoMatch lib env req \/ ObjectMissing lib env req w \/
  UpstreamRejected unusable lib env req.
Proof.
  unfold NoMatch, ObjectMissing, UpstreamRejected, unusable.
  destruct (getRandomImage env (filter_of lib req)) as [[image|]|] eqn:Hsel.
  - rewrite (random_selected _ _ _ _ _ Hsel).
    destruct (key_cases (r2Key (plan_of lib env req image)))
      as [(key & Hk & Hne) | Hk].
    + rewrite (serve_with_key _ _ _ _ _ Hk Hne). split.
      * intros H. right. left. exists image, key.
        destruct (get_ok env key); [|discriminate].
        destruct (bucket w !! key); [discriminate|]. auto.
      * intros [H | [(im & k & Him & Hk' & _ & Hg & Hb) | (im & u & Him & Hk' & _)]].
        -- discriminate.
        -- injection Him as <-. rewrite Hk in Hk'. injection Hk' as <-.
           now rewrite Hg, Hb.
        -- injection Him as <-. rewrite Hk in Hk'.
           destruct Hk' as [Hk' | Hk']; [discriminate|].
           injection Hk' as ->. contradiction.
    + rewrite (serve_without_key _ _ _ _ Hk). split.
      * intros H. right. right.
        destruct (fetch env _) as [u|] eqn:Hf; [|discriminate].
        exists image, u. repeat split; auto.
        destruct (up_ok u); [|auto]. destruct (up_body u); [discriminate|auto].
      * intros [H | [(im & k & Him & Hk' & Hne & _) | (im & u & Him & _ & Hf & Hu)]].
        -- discriminate.
        -- injection Him as <-. rewrite Hk' in Hk.
           destruct Hk as [Hk | Hk]; [discriminate|].
           injection Hk as ->. contradiction.
        -- injection Him as <-. rewrite Hf.
           destruct Hu as [-> | ->]; [reflexivity|]. now destruct (up_ok u).
  - rewrite (random_no_match _ _ _ _ Hsel). split; auto.
  - rewrite (random_select_fails _ _ _ _ Hsel). split; [discriminate|].
    intros [H | [(im & k & H & _) | (im & u & H & _)]]; discriminate.
Qed.

(** C7, as stated, fails: the transform endpoint answers the proxied avif
    request of the sample png with status 204 and no body; the response is a
    404 although the upstream response is a success. *)
Lemma stated_not_found_rule_fails : ~ stated_not_found_rule.
Proof.
  intros H.
  pose (up := mkUpstream true 204 None None).
  pose (env := Sample.env None "" (Some Sample.png_record) up [] "").
  pose (req := Sample.random_req (Some "avif") None).
  destruct (H Sample.lib env req Sample.empty_world) as [Hto _].
  destruct (Hto eq_refl) as [Hn | [(im & k & Him & Hk & Hne & _) | (im & u & _ & _ & Hf & Hu)]].
  - discriminate Hn.
  - injection Him as <-. vm_compute in Hk. discriminate Hk.
  - injection Hf as <-. discriminate Hu.
Qed.

(** ** The cleanup sweep *)

Lemma cleanup_item_run env image c w :
  (cleanup_item env image c w).1.1 = Val (if swept env image then c + 1 else c) /\
  (cleanup_item env image c w).2 = sweep_events env image.
Proof.
  unfold cleanup_item, try_catch, storage_deleteMany, metadata_deleteImage,
    swept, sweep_events, bind, emit, get_world, set_world, ret, throw.
  destruct (deleteMany_ok env (keysToDelete image)); simpl; [|auto].
  destruct (deleteImage_ok env (id image)); simpl; auto.
Qed.

Lemma cleanup_loop_run env images : forall c w,
  (cleanup_loop env images c w).1.1
  = Val (c + Z.of_nat (length (List.filter (swept env) images))) /\
  (cleanup_loop env images c w).2 = flat_map (sweep_events env) images.
Proof.
  induction images as [|image rest IH]; intros c w; simpl.
  - split; [f_equal; lia | reflexivity].
  - unfold bind.
    destruct (cleanup_item_run env image c w) as [Hv Ht].
    destruct (cleanup_item env image c w) as [[r w1] t1]. simpl in Hv, Ht. subst r t1.
    destruct (IH (if swept env image then c + 1 else c) w1) as [Hv Ht].
    destruct (cleanup_loop env rest _ w1) as [[r w2] t2]. simpl in Hv, Ht |- *.
    subst r t2. split; [|reflexivity].
    destruct (swept env image); simpl; f_equal; lia.
Qed.

(** In the events of a sweep, a row deletion comes right after the
    successful deletion of the bytes of the same image. *)
Lemma sweep_row_after_bytes env images : forall t1 i ok t2,
  flat_map (sweep_events env) images = t1 ++ EvDeleteImage i ok :: t2 ->
  exists t0 image,
    In image images /\ id image = i /\
    t1 = t0 ++ [EvDeleteMany (keysToDelete image) true].
Proof.
  induction images as [|image rest IH]; intros t1 i ok t2 H; simpl in H.
  - destruct t1; discriminate.
  - unfold sweep_events in H at 1.
    destruct (deleteMany_ok env (keysToDelete image)) eqn:Hd; simpl in H.
    + destruct t1 as [|e1 t1]; [discriminate|]. injection H as <- H.
      destruct t1 as [|e2 t1].
      * injection H as <- _ _. exists [], image. simpl. auto.
      * injection H as <- H. apply IH in H as (t0 & im & Hin & Hid & ->).
        exists (EvDeleteMany (keysToDelete image) true
                :: EvDeleteImage (id image) (deleteImage_ok env (id image)) :: t0), im.
        simpl. auto.
    + destruct t1 as [|e1 t1]; [discriminate|]. injection H as <- H.
      apply IH in H as (t0 & im & Hin & Hid & ->).
      exists (EvDeleteMany (keysToDelete image) false :: t0), im. simpl. auto.
Qed.

(** *** The stores after a sweep *)

Lemma cleanup_item_world env image c w :
  (cleanup_item env image c w).1.2 = sweep_world env image w.
Proof.
  unfold cleanup_item, try_catch, storage_deleteMany, metadata_deleteImage,
    sweep_world, bind, emit, get_world, set_world, ret, throw.
  destruct (deleteMany_ok env (keysToDelete image)); simpl; [|reflexivity].
  destruct (deleteImage_ok env (id image)); reflexivity.
Qed.

Lemma cleanup_loop_world env images : forall c w,
  (cleanup_loop env images c w).1.2 = sweep_all env images w.
Proof.
  induction images as [|image rest IH]; intros c w; simpl; [reflexivity|].
  unfold bind.
  pose proof (cleanup_item_world env image c w) as Hw.
  destruct (cleanup_item_run env image c w) as [Hv _].
  destruct (cleanup_item env image c w) as [[r w1] t1]. simpl in Hw, Hv.
  subst r w1.
  pose proof (IH (if swept env image then c + 1 else c) (sweep_world env image w))
    as Hrest.
  destruct (cleanup_loop env rest _ (sweep_world env image w)) as [[r w2] t2].
  exact Hrest.
Qed.

Lemma cleanup_world env w expired :
  getExpiredImages env = Some expired ->
  world (cleanupHandler env w) = sweep_all env expired w.
Proof.
  intros Hexp. unfold cleanupHandler, run, cleanup_body, metadata_getExpiredImages,
    bind, emit, ret. rewrite Hexp. simpl.
  pose proof (cleanup_loop_world env expired 0 w) as Hw.
  destruct (cleanup_loop_run env expired 0 w) as [Hv _].
  destruct (cleanup_loop env expired 0 w) as [[r w1] t1]. simpl in Hw, Hv.
  subst r w1. reflexivity.
Qed.

(** One iteration never adds an object or a row. *)
Lemma sweep_world_shrinks env image w :
  (forall k v, bucket (sweep_world env image w) !! k = Some v -> bucket w !! k = Some v) /\
  (forall r, In r (db (sweep_world env image w)) -> In r (db w)).
Proof.
  unfold sweep_world.
  destruct (deleteMany_ok env (keysToDelete image)); [|auto].
  assert (Hb : forall k v, foldr delete (bucket w) (keysToDelete image) !! k = Some v ->
                 bucket w !! k = Some v)
    by (intros k v H; now apply lookup_foldr_delete_Some in H).
  destruct (deleteImage_ok env (id image)); simpl; split; auto.
  intros r Hr. now apply filter_In in Hr.
Qed.

Lemma sweep_all_shrinks env images : forall w,
  (forall k v, bucket (sweep_all env images w) !! k = Some v -> bucket w !! k = Some v) /\
  (forall r, In r (db (sweep_all env images w)) -> In r (db w)).
Proof.
  induction images as [|image rest IH]; intros w; simpl; [auto|].
  destruct (IH (sweep_world env image w)) as [Hb Hd].
  destruct (sweep_world_shrinks env image w) as [Hb1 Hd1].
  split; eauto.
Qed.

Lemma bucket_gone_stays env images w k :
  bucket w !! k = None -> bucket (sweep_all env images w) !! k = None.
Proof.
  intros Hn. destruct (bucket (sweep_all env images w) !! k) as [v|] eqn:Hv;
    [|reflexivity].
  apply (proj1 (sweep_all_shrinks env images w)) in Hv. congruence.
Qed.

Lemma sweep_world_bucket env image w k :
  bucket (sweep_world env image w) !! k
  = if deleteMany_ok env (keysToDelete image)
    then if decide (k ∈ keysToDelete image) then None else bucket w !! k
    else bucket w !! k.
Proof.
  unfold sweep_world.
  destruct (deleteMany_ok env (keysToDelete image)); [|reflexivity].
  assert (Hb : foldr delete (bucket w) (keysToDelete image) !! k
               = if decide (k ∈ keysToDelete image) then None else bucket w !! k).
  { case_decide.
    - now apply lookup_foldr_delete.
    - now apply lookup_foldr_delete_not_elem_of. }
  destruct (deleteImage_ok env (id image)); exact Hb.
Qed.

Lemma sweep_world_db env image w r :
  In r (db (sweep_world env image w)) <->
  In r (db w) /\ (swept env image = true -> id r <> id image).
Proof.
  unfold sweep_world, swept.
  destruct (deleteMany_ok env (keysToDelete image)); simpl;
    [|split; [intros H; split; [exact H | discriminate] | intros [H _]; exact H]].
  destruct (deleteImage_ok env (id image)); simpl;
    [|split; [intros H; split; [exact H | discriminate] | intros [H _]; exact H]].
  rewrite filter_In, negb_true_iff, String.eqb_neq. split.
  - intros [H Hne]. split; [exact H | intros _; exact Hne].
  - intros [H Hne]. split; [exact H | now apply Hne].
Qed.

Lemma sweep_all_db env images : forall w r,
  In r (db (sweep_all env images w)) <->
  In r (db w) /\
  (forall image, In image images -> swept env image = true -> id r <> id image).
Proof.
  induction images as [|im rest IH]; intros w r; simpl.
  - split; [intros H; split; [exact H | intros image []] | intros [H _]; exact H].
  - rewrite IH, sweep_world_db. split.
    + intros [[H Him] Hrest]. split; [exact H|].
      intros image [<- | Hin]; [exact Him | now apply Hrest].
    + intros [H Hall]. split; [split; [exact H|] |].
      * apply Hall. now left.
      * intros image Hin. apply Hall. now right.
Qed.

(** The keys of a swept image are gone after the sweep of a list it
    belongs to. *)
Lemma sweep_all_bucket_gone env images : forall w image k,
  In image images ->
  deleteMany_ok env (keysToDelete image) = true ->
  In k (keysToDelete image) ->
  bucket (sweep_all env images w) !! k = None.
Proof.
  induction images as [|im rest IH]; intros w image k Hin Hok Hk; [destruct Hin|].
  simpl. destruct Hin as [-> | Hin]; [|now apply (IH _ image)].
  apply bucket_gone_stays. rewrite sweep_world_bucket, Hok.
  apply list_elem_of_In in Hk. now rewrite decide_True.
Qed.

(** A key of no swept image holds after the sweep what it held before. *)
Lemma sweep_all_bucket_kept env images : forall w k,
  (forall image, In image images ->
     deleteMany_ok env (keysToDelete image) = true ->
     ~ In k (keysToDelete image)) ->
  bucket (sweep_all env images w) !! k = bucket w !! k.
Proof.
  induction images as [|im rest IH]; intros w k Hk; [reflexivity|].
  simpl. rewrite IH by (intros image Hin; apply Hk; now right).
  rewrite sweep_world_bucket.
  destruct (deleteMany_ok env (keysToDelete im)) eqn:Hok; [|reflexivity].
  rewrite decide_False; [reflexivity|].
  rewrite list_elem_of_In. apply Hk; [now left | exact Hok].
Qed.

Lemma filter_twice {A} (p q : A -> bool) (l : list A) :
  List.filter q (List.filter p l) = List.filter (fun x => p x && q x) l.
Proof.
  induction l as [|x l IH]; simpl; [reflexivity|].
  destruct (p x); simpl; [destruct (q x)|]; now rewrite IH.
Qed.

Lemma filter_same {A} (p q : A -> bool) (l : list A) :
  (forall x, p x = q x) -> List.filter p l = List.filter q l.
Proof.
  intros H. induction l as [|x l IH]; simpl; [reflexivity|].
  now rewrite H, IH.
Qed.

Lemma filter_all {A} (l : list A) : List.filter (fun _ => true) l = l.
Proof. induction l as [|x l IH]; simpl; [reflexivity | now rewrite IH]. Qed.

(** The rows after one iteration, then after the sweep of a list. *)
Lemma sweep_world_rows env image w :
  db (sweep_world env image w) = List.filter (kept_row env [image]) (db w).
Proof.
  unfold sweep_world, kept_row, swept. simpl.
  destruct (deleteMany_ok env (keysToDelete image)); simpl;
    [|now rewrite filter_all].
  destruct (deleteImage_ok env (id image)); simpl; [|now rewrite filter_all].
  apply filter_same. intros r. now rewrite orb_false_r.
Qed.

Lemma sweep_all_rows env images : forall w,
  db (sweep_all env images w) = List.filter (kept_row env images) (db w).
Proof.
  induction images as [|im rest IH]; intros w; simpl.
  - unfold kept_row. simpl. now rewrite filter_all.
  - rewrite IH, sweep_world_rows, filter_twice. apply filter_same.
    intros r. unfold kept_row. simpl. now rewrite orb_false_r, negb_orb.
Qed.

(** C9. The cleanup sweep visits every expired image; for each it deletes
    the object-store bytes first and the metadata row only after that
    succeeded; a failure of either deletion is caught and the loop goes on
    with the next image; the response is a success that reports the number of
    images for which both deletions succeeded. In the stores it leaves, every
    key of an image whose byte deletion succeeded is absent from the object
    store and every other key holds what it held; the database holds, in
    their order, the rows it held except those of the images for which both
    deletions succeeded. *)
Theorem cleanup_sweep (env : Env) (w : World) (expired : list ImageMetadata) :
  getExpiredImages env = Some expired ->
  let o := cleanupHandler env w in
  response o
  = successResponse (PCleanup (Z.of_nat (length (List.filter (swept env) expired)))) /\
  trace o = EvListExpired :: flat_map (sweep_events env) expired /\
  (forall image, In image expired ->
     In (EvDeleteMany (keysToDelete image) (deleteMany_ok env (keysToDelete image)))
        (trace o)) /\
  (forall t1 i ok t2, trace o = t1 ++ EvDeleteImage i ok :: t2 ->
     exists t0 image, In image expired /\ id image = i /\
       t1 = t0 ++ [EvDeleteMany (keysToDelete image) true]) /\
  (forall image k, In image expired ->
     deleteMany_ok env (keysToDelete image) = true ->
     In k (keysToDelete image) ->
     bucket (world o) !! k = None) /\
  (forall k,
     (forall image, In image expired ->
        deleteMany_ok env (keysToDelete image) = true ->
        ~ In k (keysToDelete image)) ->
     bucket (world o) !! k = bucket w !! k) /\
  db (world o) = List.filter (kept_row env expired) (db w).
Proof.
  intros Hexp o.
  assert (Hrun : response o
            = successResponse
                (PCleanup (Z.of_nat (length (List.filter (swept env) expired)))) /\
          trace o = EvListExpired :: flat_map (sweep_events env) expired).
  { subst o. unfold cleanupHandler, run, cleanup_body, metadata_getExpiredImages,
      bind, emit, ret. rewrite Hexp. simpl.
    destruct (cleanup_loop_run env expired 0 w) as [Hv Ht].
    destruct (cleanup_loop env expired 0 w) as [[r w1] t1]. simpl in Hv, Ht.
    subst r t1. unfold response, trace. simpl. rewrite app_nil_r. auto. }
  destruct Hrun as [Hr Ht]. rewrite Ht. split; [exact Hr|]. split; [reflexivity|].
  split; [|split].
  - intros image Hin. right. apply in_flat_map. exists image.
    split; [exact Hin | left; reflexivity].
  - intros t1 i ok t2 H.
    destruct t1 as [|e t1]; [discriminate|]. injection H as <- H.
    apply sweep_row_after_bytes in H as (t0 & im & Hin & Hid & ->).
    exists (EvListExpired :: t0), im. auto.
  - subst o. rewrite (cleanup_world env w expired Hexp). split; [|split].
    + intros image k. apply sweep_all_bucket_gone.
    + intros k. apply sweep_all_bucket_kept.
    + apply sweep_all_rows.
Qed.

(** ** The upload handler: validation *)

Lemma check_content_length_run h w :
  check_content_length h w
  = if exceeds_declared h then (Ret too_large, w, []) else (Val tt, w, []).
Proof.
  unfold check_content_length, exceeds_declared.
  destruct h as [s|]; [|reflexivity].
  destruct (truthy s) eqn:Hs.
  - destruct (parseInt s) as [n|]; [|reflexivity].
    destruct (n >? MAX_FILE_SIZE); reflexivity.
  - apply truthy_false in Hs. subst s. reflexivity.
Qed.

(** The handler up to the point where the form has been read. *)
Lemma upload_run lib env req w :
  uploadSingleHandler lib env req w
  = if exceeds_declared (req_contentLength req) then (too_large, w, [])
    else match req_body req with
         | None =>
             (errorResponse
                "Failed to parse form data. File may be too large or corrupted."
                (Some 400), w, [EvReadBody])
         | Some fd =>
             after [EvReadBody]
               (run match formData_get fd "image" with
                    | Some (EntryFile file) =>
                        process_file lib env file (formData_get fd "tags")
                          (parseNumber lib (formData_get fd "expiryMinutes") 0)
                          (parseCompressionOptions lib fd)
                    | _ => return_ (errorResponse "No file provided" None)
                    end (errorResponse "Upload failed" None) w)
         end.
Proof.
  unfold uploadSingleHandler, run, uploadSingle_body, bind at 1.
  rewrite check_content_length_run.
  destruct (exceeds_declared (req_contentLength req)); [reflexivity|].
  unfold bind at 1, try_catch, read_formData, bind at 1, emit.
  destruct (req_body req) as [fd|]; [|reflexivity].
  unfold ret at 1. simpl. unfold after.
  destruct (formData_get fd "image") as [[s|file]|]; try reflexivity.
  destruct (process_file _ _ _ _ _ _ w) as [[[r|r|] w1] t1]; reflexivity.
Qed.

(** The validation of the file, lines 50-71. *)
Lemma process_file_run lib env file tagsString expiryMinutes o e w :
  run (process_file lib env file tagsString expiryMinutes o) e w
  = if file_size file >? MAX_FILE_SIZE then (too_large, w, [])
    else match getImageInfo lib (file_data file) with
         | None => (e, w, [])
         | Some info =>
             if isSupportedFormat lib (info_format info)
             then run (store_image lib env file info (parseTags lib tagsString)
                         expiryMinutes o) e w
             else (errorResponse ("Unsupported format: " +:+ info_format info) None,
                   w, [])
         end.
Proof.
  unfold run, process_file.
  destruct (file_size file >? MAX_FILE_SIZE); [reflexivity|].
  unfold bind at 1.
  destruct (getImageInfo lib (file_data file)) as [info|]; [|reflexivity].
  unfold ret at 1.
  destruct (isSupportedFormat lib (info_format info)); simpl; [|reflexivity].
  destruct (store_image _ _ _ _ _ _ _ w) as [[[r|r|] w1] t1];
    simpl; reflexivity.
Qed.

(** An accepted request reads the body and then stores the image. *)
Lemma upload_accepted lib env req w fd file info :
  Accepted lib req fd file info ->
  uploadSingleHandler lib env req w
  = after [EvReadBody]
      (run (store_accepted lib env fd file info)
           (errorResponse "Upload failed" None) w).
Proof.
  intros [Hd Hb Hf Hs Hi Hsup].
  rewrite upload_run, Hd, Hb, Hf, process_file_run, Hi, Hsup.
  assert (Hsz : (file_size file >? MAX_FILE_SIZE) = false) by lia.
  now rewrite Hsz.
Qed.

(** A request that is not accepted does no I/O beyond reading the body. *)
Lemma upload_not_accepted lib env req w :
  (exists fd file info, Accepted lib req fd file info) \/
  (world (uploadSingleHandler lib env req w) = w /\
   (trace (uploadSingleHandler lib env req w) = [] \/
    trace (uploadSingleHandler lib env req w) = [EvReadBody])).
Proof.
  rewrite upload_run.
  destruct (exceeds_declared (req_contentLength req)) eqn:Hd; [right; auto|].
  destruct (req_body req) as [fd|] eqn:Hb; [|right; auto].
  destruct (formData_get fd "image") as [[s|file]|] eqn:Hf;
    [right; auto | | right; auto].
  rewrite process_file_run.
  destruct (file_size file >? MAX_FILE_SIZE) eqn:Hs; [right; auto|].
  destruct (getImageInfo lib (file_data file)) as [info|] eqn:Hi; [|right; auto].
  destruct (isSupportedFormat lib (info_format info)) eqn:Hsup; [|right; auto].
  left. exists fd, file, info. split; auto. lia.
Qed.

(** Membership in an explicit trace: try every position. *)
Ltac in_trace H :=
  simpl in H;
  repeat (destruct H as [H|H]; [try discriminate H|]);
  try contradiction.

(** ** The upload handler: storing the image *)

Lemma store_image_run lib env file info tags em o e w :
  let orig := paths_original (allocated lib env info) in
  run (store_image lib env file info tags em o) e w
  = match fill_variants env file info o (allocated lib env info)
            (mkUploadPromise orig (file_data file))
            (mkLocals (mkPaths orig "" "") 0 0) w with
    | (Val l, w1, t1) =>
        if expiry_valid env em then
          let r := build_metadata env file info tags (expiry_of env em) l in
          if saveImage_ok env
          then (successResponse (PUpload (build_result lib env r o)), saved w1 r,
                EvPutStart orig :: t1 ++ [EvSaveImage r; EvInvalidate])
          else (e, w1, EvPutStart orig :: t1 ++ [EvSaveFailed])
        else (e, w1, EvPutStart orig :: t1)
    | (Ret r, w1, t1) => (r, w1, EvPutStart orig :: t1)
    | (Exn, w1, t1) => (e, w1, EvPutStart orig :: t1)
    end.
Proof.
  intros orig. subst orig.
  unfold run, store_image, allocated, storage_upload.
  unfold bind at 1. unfold bind at 1. unfold emit at 1, ret at 1. simpl.
  unfold bind at 1.
  destruct (fill_variants _ _ _ _ _ _ _ w) as [[[l|r|] w1] t1]; try reflexivity.
  unfold expiry_time, expiry_valid, expiry_of, bind at 1.
  destruct (em >? 0); [destruct (valid_date _)|];
    unfold ret at 1, throw; rewrite ?app_nil_r; try reflexivity.
  all: unfold saveImage, bind, emit, get_world, set_world, ret, throw, saved;
    destruct (saveImage_ok env); simpl; rewrite ?app_nil_r; reflexivity.
Qed.

Lemma await_upload_run env p w :
  await_upload env p w
  = if upload_ok env (pr_key p)
    then (Val tt, written w (pr_key p) (pr_data p), [EvPutDone (pr_key p)])
    else (Exn, w, [EvPutFailed (pr_key p)]).
Proof.
  unfold await_upload, settle_upload, write_object, bind, emit, get_world,
    set_world, ret, throw, written.
  destruct (upload_ok env (pr_key p)); reflexivity.
Qed.

Lemma fill_variants_pass_through env file info o gp p l0 w :
  pass_through_format (info_format info) = true ->
  fill_variants env file info o gp p l0 w
  = if upload_ok env (pr_key p)
    then (Val (as_is file (info_format info) l0),
          written w (pr_key p) (pr_data p), [EvPutDone (pr_key p)])
    else (Exn, w, [EvPutFailed (pr_key p)]).
Proof.
  unfold pass_through_format, fill_variants. intros ->.
  unfold pass_through, bind. rewrite await_upload_run.
  destruct (upload_ok env (pr_key p)); reflexivity.
Qed.

Lemma fill_variants_skip env file info o gp p l0 w :
  pass_through_format (info_format info) = false ->
  IMAGES env = None \/ CLOUDFLARE_IMAGES_MAX_BYTES < file_size file ->
  fill_variants env file info o gp p l0 w
  = if upload_ok env (pr_key p)
    then (Val (with_markers o l0),
          written w (pr_key p) (pr_data p), [EvPutDone (pr_key p)])
    else (Exn, w, [EvPutFailed (pr_key p)]).
Proof.
  unfold pass_through_format, fill_variants. intros -> Hskip.
  assert (Hrun : skip_path env o p l0 w
                 = if upload_ok env (pr_key p)
                   then (Val (with_markers o l0),
                         written w (pr_key p) (pr_data p), [EvPutDone (pr_key p)])
                   else (Exn, w, [EvPutFailed (pr_key p)])).
  { unfold skip_path, bind. rewrite await_upload_run.
    destruct (upload_ok env (pr_key p)); reflexivity. }
  destruct (IMAGES env) as [compress|]; [|exact Hrun].
  destruct Hskip as [Hn | Hbig]; [discriminate|].
  assert (Hle : (file_size file <=? CLOUDFLARE_IMAGES_MAX_BYTES) = false) by lia.
  rewrite Hle. exact Hrun.
Qed.

(** An accepted upload whose variants are filled in without any further
    I/O than waiting for the original: its three possible outcomes. *)
Lemma upload_original_only lib env req w fd file info l :
  Accepted lib req fd file info ->
  let orig := paths_original (allocated lib env info) in
  (forall p l0 w0,
     fill_variants env file info (options_of lib fd) (allocated lib env info) p l0 w0
     = if upload_ok env (pr_key p)
       then (Val (l l0), written w0 (pr_key p) (pr_data p), [EvPutDone (pr_key p)])
       else (Exn, w0, [EvPutFailed (pr_key p)])) ->
  let r := record_of lib env fd file info (l (mkLocals (mkPaths orig "" "") 0 0)) in
  uploadSingleHandler lib env req w
  = if upload_ok env orig
    then if expiry_valid env (minutes_of lib fd)
         then if saveImage_ok env
              then (successResponse
                      (PUpload (build_result lib env r (options_of lib fd))),
                    saved (written w orig (file_data file)) r,
                    [EvReadBody; EvPutStart orig; EvPutDone orig; EvSaveImage r;
                     EvInvalidate])
              else (errorResponse "Upload failed" None,
                    written w orig (file_data file),
                    [EvReadBody; EvPutStart orig; EvPutDone orig; EvSaveFailed])
         else (errorResponse "Upload failed" None,
               written w orig (file_data file),
               [EvReadBody; EvPutStart orig; EvPutDone orig])
    else (errorResponse "Upload failed" None, w,
          [EvReadBody; EvPutStart orig; EvPutFailed orig]).
Proof.
  intros Hacc orig Hfill r. subst r orig.
  rewrite (upload_accepted _ _ _ _ _ _ _ Hacc).
  unfold store_accepted. rewrite store_image_run, Hfill. simpl.
  destruct (upload_ok env _); [|reflexivity].
  destruct (expiry_valid env _); [|reflexivity].
  destruct (saveImage_ok env); reflexivity.
Qed.

Lemma as_is_stored lib env fd file info orig :
  pass_through_format (info_format info) = true ->
  stored_as_is (info_format info) orig (file_size file)
    (record_of lib env fd file info
       (as_is file (info_format info) (mkLocals (mkPaths orig "" "") 0 0))).
Proof.
  intros Hpt. unfold stored_as_is, record_of, build_metadata, as_is.
  split; [|split; [|split; [|split]]].
  - destruct (String.eqb (info_format info) "webp"),
             (String.eqb (info_format info) "avif"); reflexivity.
  - reflexivity.
  - intros H. rewrite H. simpl. auto.
  - intros H. rewrite H. simpl. auto.
  - intros H. rewrite H. simpl. auto.
Qed.

(** C2. An accepted upload whose detected format is gif, webp or avif never
    calls the transcoder and writes nothing but the original; the record it
    saves has the slot of the source's own format (webp or avif) equal to the
    original's location with the original's size, and every other derived
    slot empty with size 0, so a gif has both empty; and when the write of
    the original and the metadata save succeed (and the requested expiry, if
    any, is a date that can be rendered), that record is saved and the upload
    succeeds. *)
Theorem pass_through_upload (lib : Lib) (env : Env) (req : UploadRequest)
    (w : World) (fd : FormData) (file : File) (info : ImageInfo) :
  Accepted lib req fd file info ->
  pass_through_format (info_format info) = true ->
  let o := uploadSingleHandler lib env req w in
  let orig := paths_original (allocated lib env info) in
  ~ In EvTranscodeStart (trace o) /\
  (forall k, In (EvPutStart k) (trace o) -> k = orig) /\
  (forall r, In (EvSaveImage r) (trace o) ->
     stored_as_is (info_format info) orig (file_size file) r) /\
  (upload_ok env orig = true -> expiry_valid env (minutes_of lib fd) = true ->
   saveImage_ok env = true ->
     exists r,
       trace o = [EvReadBody; EvPutStart orig; EvPutDone orig; EvSaveImage r;
                  EvInvalidate] /\
       db (world o) = db w ++ [r] /\
       bucket (world o) !! orig = Some (file_data file) /\
       response o
       = successResponse (PUpload (build_result lib env r (options_of lib fd)))).
Proof.
  intros Hacc Hpt o orig. subst o.
  rewrite (upload_original_only lib env req w fd file info
             (as_is file (info_format info)) Hacc).
  2:{ intros p l0 w0. now apply fill_variants_pass_through. }
  fold orig.
  pose proof (as_is_stored lib env fd file info orig Hpt) as Hst.
  unfold trace, world, response.
  split; [|split; [|split]].
  - destruct (upload_ok env orig), (expiry_valid env (minutes_of lib fd)), (saveImage_ok env); simpl;
      intros H; in_trace H.
  - intros k.
    destruct (upload_ok env orig), (expiry_valid env (minutes_of lib fd)), (saveImage_ok env); simpl;
      intros H; in_trace H; congruence.
  - intros r.
    destruct (upload_ok env orig), (expiry_valid env (minutes_of lib fd)), (saveImage_ok env); simpl;
      intros H; in_trace H. injection H as <-. exact Hst.
  - intros -> -> ->. simpl. eexists. split; [reflexivity|]. split; [reflexivity|].
    split; [apply lookup_insert_eq | reflexivity].
Qed.

Lemma with_markers_marked lib env fd file info orig :
  marked (wantsWebp lib fd) (wantsAvif lib fd) orig
    (record_of lib env fd file info
       (with_markers (options_of lib fd) (mkLocals (mkPaths orig "" "") 0 0))).
Proof.
  unfold marked, record_of, build_metadata, with_markers, wantsWebp, wantsAvif.
  destruct (not_false (generateWebp (options_of lib fd))),
           (not_false (generateAvif (options_of lib fd))); simpl; auto.
Qed.

(** The outcome of an accepted upload of a transcodable format when the
    transcoder is not configured or the file exceeds its input limit. *)
Lemma upload_skipped lib env req w fd file info :
  Accepted lib req fd file info ->
  pass_through_format (info_format info) = false ->
  IMAGES env = None \/ CLOUDFLARE_IMAGES_MAX_BYTES < file_size file ->
  let orig := paths_original (allocated lib env info) in
  let r := record_of lib env fd file info
             (with_markers (options_of lib fd) (mkLocals (mkPaths orig "" "") 0 0)) in
  uploadSingleHandler lib env req w
  = if upload_ok env orig
    then if expiry_valid env (minutes_of lib fd)
         then if saveImage_ok env
              then (successResponse
                      (PUpload (build_result lib env r (options_of lib fd))),
                    saved (written w orig (file_data file)) r,
                    [EvReadBody; EvPutStart orig; EvPutDone orig; EvSaveImage r;
                     EvInvalidate])
              else (errorResponse "Upload failed" None,
                    written w orig (file_data file),
                    [EvReadBody; EvPutStart orig; EvPutDone orig; EvSaveFailed])
         else (errorResponse "Upload failed" None,
               written w orig (file_data file),
               [EvReadBody; EvPutStart orig; EvPutDone orig])
    else (errorResponse "Upload failed" None, w,
          [EvReadBody; EvPutStart orig; EvPutFailed orig]).
Proof.
  intros Hacc Hpt Hskip orig r.
  apply (upload_original_only lib env req w fd file info
           (with_markers (options_of lib fd)) Hacc).
  intros p l0 w0. now apply fill_variants_skip.
Qed.

(** C3. An accepted upload of a transcodable format for which transcoding is
    skipped (the file exceeds the 10MB limit of the transform service, or no
    transcoder is configured) never calls the transcoder; in the record it
    saves, every wanted derived slot (webp, avif, per the request options) is
    the marker alias, equal to the original's location, an unwanted one is
    empty, and both derived sizes are 0; and when the write of the original
    and the metadata save succeed (and the requested expiry, if any, is a
    date that can be rendered), that record is saved and the upload
    succeeds. *)
Theorem skipped_transcoding_upload (lib : Lib) (env : Env) (req : UploadRequest)
    (w : World) (fd : FormData) (file : File) (info : ImageInfo) :
  Accepted lib req fd file info ->
  pass_through_format (info_format info) = false ->
  IMAGES env = None \/ CLOUDFLARE_IMAGES_MAX_BYTES < file_size file ->
  let o := uploadSingleHandler lib env req w in
  let orig := paths_original (allocated lib env info) in
  ~ In EvTranscodeStart (trace o) /\
  (forall r, In (EvSaveImage r) (trace o) ->
     marked (wantsWebp lib fd) (wantsAvif lib fd) orig r) /\
  (upload_ok env orig = true -> expiry_valid env (minutes_of lib fd) = true ->
   saveImage_ok env = true ->
     exists r,
       trace o = [EvReadBody; EvPutStart orig; EvPutDone orig; EvSaveImage r;
                  EvInvalidate] /\
       db (world o) = db w ++ [r] /\
       response o
       = successResponse (PUpload (build_result lib env r (options_of lib fd)))).
Proof.
  intros Hacc Hpt Hskip o orig. subst o.
  rewrite (upload_skipped lib env req w fd file info Hacc Hpt Hskip). fold orig.
  pose proof (with_markers_marked lib env fd file info orig) as Hm.
  unfold trace, world, response.
  split; [|split].
  - destruct (upload_ok env orig), (expiry_valid env (minutes_of lib fd)), (saveImage_ok env); simpl;
      intros H; in_trace H.
  - intros r.
    destruct (upload_ok env orig), (expiry_valid env (minutes_of lib fd)), (saveImage_ok env); simpl;
      intros H; in_trace H. injection H as <-. exact Hm.
  - intros -> -> ->. simpl. eexists. repeat split.
Qed.

(** ** Size limits *)

(** C8. An upload whose declared Content-Length parses to more than the
    70MB maximum is rejected with status 413 before the body is read (no
    event at all, the stores untouched); an accepted upload whose file merely
    exceeds the 10MB transcoder limit is not rejected: the transcoder is not
    called, the only error it can end in is the generic failure of the outer
    catch, and when the write of the original and the metadata save succeed
    (and the requested expiry, if any, is a date that can be rendered) it
    succeeds. *)
Theorem size_limits (lib : Lib) (env : Env) (req : UploadRequest) (w : World) :
  (forall s n, req_contentLength req = Some s -> parseInt s = Some n ->
     MAX_FILE_SIZE < n ->
     uploadSingleHandler lib env req w
     = (errorResponse "File too large. Maximum size is 70MB" (Some 413), w, [])) /\
  (forall fd file info, Accepted lib req fd file info ->
     CLOUDFLARE_IMAGES_MAX_BYTES < file_size file ->
     let o := uploadSingleHandler lib env req w in
     ~ In EvTranscodeStart (trace o) /\
     (is_success (response o) = true \/
      response o = errorResponse "Upload failed" None) /\
     (upload_ok env (paths_original (allocated lib env info)) = true ->
      expiry_valid env (minutes_of lib fd) = true ->
      saveImage_ok env = true -> is_success (response o) = true)).
Proof.
  split.
  - intros s n Hh Hp Hn. rewrite upload_run.
    unfold exceeds_declared. rewrite Hh, Hp.
    assert (Hgt : (n >? MAX_FILE_SIZE) = true) by lia. now rewrite Hgt.
  - intros fd file info Hacc Hbig o. subst o.
    destruct (pass_through_format (info_format info)) eqn:Hpt.
    + rewrite (upload_original_only lib env req w fd file info
                 (as_is file (info_format info)) Hacc)
        by (intros p l0 w0; now apply fill_variants_pass_through).
      unfold trace, response.
      destruct (upload_ok env _), (expiry_valid env (minutes_of lib fd)), (saveImage_ok env); simpl;
        (split; [intros H; in_trace H | split; [auto | auto; intros; discriminate]]).
    + rewrite (upload_skipped lib env req w fd file info Hacc Hpt (or_intror Hbig)).
      unfold trace, response.
      destruct (upload_ok env _), (expiry_valid env (minutes_of lib fd)), (saveImage_ok env); simpl;
        (split; [intros H; in_trace H | split; [auto | auto; intros; discriminate]]).
Qed.

(** ** The transcoding path *)

(** Decide every test the transcoding path depends on. *)
Ltac branch :=
  repeat match goal with
    | |- context [settle_upload] =>
        unfold settle_upload, write_object, bind, emit, ret, throw,
          get_world, set_world; simpl
    | |- context [upload_ok ?e ?k] => destruct (upload_ok e k) eqn:?; simpl
    | |- context [not_false ?x] => destruct (not_false x) eqn:?; simpl
    | |- context [cr_webp ?c] => destruct (cr_webp c) eqn:?; simpl
    | |- context [cr_avif ?c] => destruct (cr_avif c) eqn:?; simpl
    | |- context [expiry_valid ?e ?m] => destruct (expiry_valid e m) eqn:?; simpl
    | |- context [saveImage_ok ?e] => destruct (saveImage_ok e) eqn:?; simpl
    | H : truthy ?k = _ |- context [truthy ?k] => rewrite H; simpl
    end.

(** Unfold an accepted upload on the transcoding path down to its tests. *)
Ltac on_transcoding_path Hacc Hpt Him Hle :=
  rewrite (upload_accepted _ _ _ _ _ _ _ Hacc);
  unfold store_accepted; rewrite store_image_run;
  unfold fill_variants; unfold pass_through_format in Hpt; rewrite Hpt, Him;
  apply Z.leb_le in Hle; rewrite Hle;
  unfold transcode_path, compress_start, await_compress, await_upload,
    settle_upload, storage_upload, write_object, Promise_all;
  unfold bind, emit, ret, throw, get_world, set_world; simpl.

Lemma transcoded_failure lib env req w fd file info compress :
  Accepted lib req fd file info ->
  pass_through_format (info_format info) = false ->
  IMAGES env = Some compress ->
  file_size file <= CLOUDFLARE_IMAGES_MAX_BYTES ->
  let o := uploadSingleHandler lib env req w in
  let gp := allocated lib env info in
  nothing_fails env (paths_original gp) gp (wantsWebp lib fd) (wantsAvif lib fd)
    (compress (file_data file) (info_format info) (options_of lib fd))
  && expiry_valid env (minutes_of lib fd) = false ->
  response o = errorResponse "Upload failed" None /\
  forall r, ~ In (EvSaveImage r) (trace o).
Proof.
  intros Hacc Hpt Him Hle o gp. subst o.
  on_transcoding_path Hacc Hpt Him Hle. fold gp.
  unfold nothing_fails, derived_ok, wantsWebp, wantsAvif, response, trace, after.
  destruct (compress _ _ _) as [cr|]; simpl.
  2:{ intros _. destruct (upload_ok env (paths_original gp)); simpl;
        (split; [reflexivity | intros r H; in_trace H]). }
  branch; intros Hok; try discriminate Hok; try congruence;
    (split; [reflexivity | intros r H; in_trace H]).
Qed.

(** An event that occurs in an explicit trace. *)
Ltac find_event := simpl; repeat first [left; reflexivity | right].

(** A derived slot, once the tests are decided. *)
Ltac slot_facts :=
  unfold derived_slot; repeat split; intros;
  repeat match goal with
    | H : truthy _ = false |- _ => apply truthy_false in H
    | H : Some _ = Some _ |- _ => injection H as <-
    end;
  try reflexivity; try discriminate; try congruence.

Lemma transcoded_success lib env req w fd file info compress :
  Accepted lib req fd file info ->
  pass_through_format (info_format info) = false ->
  IMAGES env = Some compress ->
  file_size file <= CLOUDFLARE_IMAGES_MAX_BYTES ->
  let o := uploadSingleHandler lib env req w in
  let gp := allocated lib env info in
  let result := compress (file_data file) (info_format info) (options_of lib fd) in
  nothing_fails env (paths_original gp) gp (wantsWebp lib fd) (wantsAvif lib fd)
    result && expiry_valid env (minutes_of lib fd) = true ->
  exists cr r,
    result = Some cr /\
    response o = successResponse (PUpload (build_result lib env r (options_of lib fd))) /\
    In (EvSaveImage r) (trace o) /\
    db (world o) = db w ++ [r] /\
    paths_original (paths r) = paths_original gp /\
    derived_slot (wantsWebp lib fd) (cr_webp cr) (paths_webp gp) (paths_original gp)
      (paths_webp (paths r)) (sizes_webp (sizes r)) /\
    derived_slot (wantsAvif lib fd) (cr_avif cr) (paths_avif gp) (paths_original gp)
      (paths_avif (paths r)) (sizes_avif (sizes r)).
Proof.
  intros Hacc Hpt Him Hle o gp result. subst o result.
  on_transcoding_path Hacc Hpt Him Hle. fold gp.
  unfold nothing_fails, derived_ok, wantsWebp, wantsAvif, response, trace, world, after.
  destruct (compress _ _ _) as [cr|]; simpl.
  2:{ rewrite andb_false_r. discriminate. }
  destruct (truthy (paths_webp gp)) eqn:Htw, (truthy (paths_avif gp)) eqn:Hta.
  all: branch; intros Hok; try discriminate Hok; try congruence.
  all: eexists cr, _; (split; [reflexivity|]); (split; [reflexivity|]).
  all: (split; [find_event|]); (split; [reflexivity|]); (split; [reflexivity|]).
  all: simpl; split; slot_facts.
Qed.

(** C1, as the code has it. On the transcoding path the upload succeeds
    exactly when nothing the handler awaits fails. A wanted variant that the
    transcoder's result omits is recovered: its slot falls back to the marker
    alias with size 0 and the upload succeeds. A rejected transcoder call or
    a failed write of a derived variant is not recovered: like a failed write
    of the original, a requested expiry that is not a date [toISOString] can
    render, or a failed metadata save, it reaches the outer catch, no record
    is saved and the response is the generic failure. *)
Theorem transcoding_failures (lib : Lib) (env : Env) (req : UploadRequest)
    (w : World) (fd : FormData) (file : File) (info : ImageInfo)
    (compress : Blob -> string -> CompressionOptions -> option CompressionResult) :
  Accepted lib req fd file info ->
  pass_through_format (info_format info) = false ->
  IMAGES env = Some compress ->
  file_size file <= CLOUDFLARE_IMAGES_MAX_BYTES ->
  let o := uploadSingleHandler lib env req w in
  let gp := allocated lib env info in
  let result := compress (file_data file) (info_format info) (options_of lib fd) in
  let ok := nothing_fails env (paths_original gp) gp
              (wantsWebp lib fd) (wantsAvif lib fd) result
            && expiry_valid env (minutes_of lib fd) in
  (ok = false ->
     response o = errorResponse "Upload failed" None /\
     forall r, ~ In (EvSaveImage r) (trace o)) /\
  (ok = true ->
     exists cr r,
       result = Some cr /\
       response o
       = successResponse (PUpload (build_result lib env r (options_of lib fd))) /\
       In (EvSaveImage r) (trace o) /\
       db (world o) = db w ++ [r] /\
       paths_original (paths r) = paths_original gp /\
       derived_slot (wantsWebp lib fd) (cr_webp cr) (paths_webp gp)
         (paths_original gp) (paths_webp (paths r)) (sizes_webp (sizes r)) /\
       derived_slot (wantsAvif lib fd) (cr_avif cr) (paths_avif gp)
         (paths_original gp) (paths_avif (paths r)) (sizes_avif (sizes r))).
Proof.
  intros Hacc Hpt Him Hle o gp result ok. split.
  - now apply transcoded_failure.
  - now apply transcoded_success.
Qed.

(** ** Sample uploads *)

Lemma sample_accepted (f : File) (len : string) (info : ImageInfo) :
  exceeds_declared (Some len) = false ->
  file_size f <= MAX_FILE_SIZE ->
  Sample.sniff (file_data f) = Some info ->
  isSupportedFormat Sample.lib (info_format info) = true ->
  Accepted Sample.lib (Sample.upload_of f len) [("image", EntryFile f)] f info.
Proof.
  intros Hd Hs Hi Hsup. split; auto.
Qed.

Lemma png_accepted :
  Accepted Sample.lib (Sample.upload_of Sample.png_file "3")
    [("image", EntryFile Sample.png_file)] Sample.png_file
    (mkImageInfo "png" 800 600 "landscape").
Proof.
  apply sample_accepted; [reflexivity | vm_compute; discriminate | reflexivity ..].
Qed.

(** C1, as stated, fails: a 3-byte png is transcoded into both variants, the
    original is written and the metadata could be saved, but the write of
    the webp variant fails, and the upload fails as a whole. *)
Lemma stated_recovery_fails : ~ stated_recovery.
Proof.
  intros H.
  pose (env := Sample.env (Some Sample.both) "webp/id1.webp" None
                 Sample.ok_upstream [] "").
  specialize (H Sample.lib env (Sample.upload_of Sample.png_file "3")
                Sample.empty_world _ _ _ Sample.both png_accepted
                eq_refl eq_refl).
  assert (Hrun : is_success
            (response (uploadSingleHandler Sample.lib env
                         (Sample.upload_of Sample.png_file "3")
                         Sample.empty_world)) = false) by (vm_compute; reflexivity).
  rewrite H in Hrun; [discriminate Hrun | vm_compute; discriminate | reflexivity ..].
Qed.

(** The same png with a transcoder that produces webp only: the avif slot
    falls back to the marker alias and the upload succeeds; and with a
    failing webp write the upload fails. *)
Lemma transcoding_failures_witness :
  (exists cr r,
     Sample.webp_only [Byte.x89; Byte.x50; Byte.x4e] "png"
       (mkCompressionOptions None None) = Some cr /\
     response (uploadSingleHandler Sample.lib
                 (Sample.env (Some Sample.webp_only) "" None Sample.ok_upstream [] "")
                 (Sample.upload_of Sample.png_file "3") Sample.empty_world)
     = successResponse
         (PUpload (build_result Sample.lib
                     (Sample.env (Some Sample.webp_only) "" None
                        Sample.ok_upstream [] "")
                     r (mkCompressionOptions None None))) /\
     paths_webp (paths r) = "webp/id1.webp" /\
     paths_avif (paths r) = "original/landscape/id1.png" /\
     sizes_avif (sizes r) = 0) /\
  response (uploadSingleHandler Sample.lib
              (Sample.env (Some Sample.both) "webp/id1.webp" None
                 Sample.ok_upstream [] "")
              (Sample.upload_of Sample.png_file "3") Sample.empty_world)
  = errorResponse "Upload failed" None.
Proof.
  split.
  - destruct (transcoding_failures Sample.lib
                (Sample.env (Some Sample.webp_only) "" None Sample.ok_upstream [] "")
                (Sample.upload_of Sample.png_file "3") Sample.empty_world
                _ _ _ Sample.webp_only png_accepted eq_refl eq_refl
                ltac:(vm_compute; discriminate)) as [_ Hok].
    destruct (Hok eq_refl) as (cr & r & Hcr & Hresp & _ & _ & _ & Hw & Ha).
    exists cr, r. split; [exact Hcr|]. split; [exact Hresp|].
    injection Hcr as <-.
    destruct Hw as (_ & _ & Hw). destruct Ha as (_ & Ha & _).
    destruct (Hw eq_refl _ eq_refl ltac:(discriminate)) as [Hw1 _].
    destruct (Ha eq_refl eq_refl) as [Ha1 Ha2].
    split; [exact Hw1|]. split; [exact Ha1 | exact Ha2].
  - destruct (transcoding_failures Sample.lib
                (Sample.env (Some Sample.both) "webp/id1.webp" None
                   Sample.ok_upstream [] "")
                (Sample.upload_of Sample.png_file "3") Sample.empty_world
                _ _ _ Sample.both png_accepted eq_refl eq_refl
                ltac:(vm_compute; discriminate)) as [Hfail _].
    exact (proj1 (Hfail eq_refl)).
Defined.

(** ** Ordering of the metadata save *)

(** What [saves_follow_writes] checks: a save in the trace is preceded by
    the completed write of each location of its record. *)
Lemma saves_follow_writes_sound t : forall done,
  saves_follow_writes done t = true ->
  forall t1 r t2, t = t1 ++ EvSaveImage r :: t2 ->
  forall k, In k (locations r) -> In k done \/ In (EvPutDone k) t1.
Proof.
  induction t as [|e t IH]; intros done Hc t1 r t2 Ht k Hk.
  - destruct t1; discriminate.
  - destruct t1 as [|e1 t1]; simpl in Ht; injection Ht as -> Ht.
    + cbn [saves_follow_writes] in Hc. apply andb_true_iff in Hc as [Hall _].
      rewrite forallb_forall in Hall. specialize (Hall k Hk).
      apply existsb_exists in Hall as (k' & Hin & Heq).
      apply String.eqb_eq in Heq. subst k'. now left.
    + assert (Hrest : forall done', saves_follow_writes done' t = true ->
                In k done' \/ In (EvPutDone k) t1)
        by (intros done' Hd; exact (IH done' Hd t1 r t2 Ht k Hk)).
      destruct e1; cbn [saves_follow_writes] in Hc;
        try (destruct (Hrest done Hc) as [H|H]; [now left | right; now right]).
      * destruct (Hrest (key :: done) Hc) as [[H|H]|H].
        -- right. left. now subst.
        -- now left.
        -- right. now right.
      * apply andb_true_iff in Hc as [_ Hc].
        destruct (Hrest done Hc) as [H|H]; [now left | right; now right].
Qed.

(** Lookups in a store after some writes. *)
Ltac stored :=
  simpl; repeat (apply lookup_insert_is_Some'; first [left; reflexivity | right]).

(** The locations of a record whose paths are known, one by one. *)
Ltac each_location Hk :=
  unfold locations in Hk; simpl in Hk;
  repeat match type of Hk with
    | context [truthy ?s] =>
        match goal with
        | H : truthy s = _ |- _ => rewrite H in Hk; simpl in Hk
        end
    end;
  repeat (destruct Hk as [Hk|Hk]; [subst|]); try contradiction.

(** Evaluate the check on an explicit trace. *)
Ltac check_trace :=
  unfold trace, after, locations; simpl;
  repeat match goal with
    | H : truthy ?s = _ |- context [truthy ?s] => rewrite H; simpl
    end;
  rewrite ?String.eqb_refl, ?orb_true_r; simpl; try reflexivity.

Lemma upload_trace_checked lib env req w :
  saves_follow_writes [] (trace (uploadSingleHandler lib env req w)) = true.
Proof.
  destruct (upload_not_accepted lib env req w)
    as [(fd & file & info & Hacc) | (_ & [-> | ->])]; [|reflexivity ..].
  set (gp := allocated lib env info).
  destruct (truthy (paths_original gp)) eqn:Hto.
  all: destruct (pass_through_format (info_format info)) eqn:Hpt.
  1,3: rewrite (upload_original_only lib env req w fd file info
                  (as_is file (info_format info)) Hacc)
         by (intros p l0 w0; now apply fill_variants_pass_through);
       fold gp; unfold record_of, build_metadata, as_is;
       destruct (upload_ok env _), (expiry_valid env (minutes_of lib fd)),
         (saveImage_ok env),
         (String.eqb (info_format info) "webp"),
         (String.eqb (info_format info) "avif"); check_trace.
  all: destruct (IMAGES env) as [compress|] eqn:Him.
  2,4: rewrite (upload_skipped lib env req w fd file info Hacc Hpt (or_introl Him));
       fold gp; unfold record_of, build_metadata, with_markers;
       destruct (upload_ok env _), (expiry_valid env (minutes_of lib fd)),
         (saveImage_ok env),
         (not_false (generateWebp (options_of lib fd))),
         (not_false (generateAvif (options_of lib fd))); check_trace.
  all: destruct (Z.le_gt_cases (file_size file) CLOUDFLARE_IMAGES_MAX_BYTES)
         as [Hle | Hbig].
  2,4: rewrite (upload_skipped lib env req w fd file info Hacc Hpt (or_intror Hbig));
       fold gp; unfold record_of, build_metadata, with_markers;
       destruct (upload_ok env _), (expiry_valid env (minutes_of lib fd)),
         (saveImage_ok env),
         (not_false (generateWebp (options_of lib fd))),
         (not_false (generateAvif (options_of lib fd))); check_trace.
  all: on_transcoding_path Hacc Hpt Him Hle; fold gp;
       destruct (compress _ _ _) as [cr|]; simpl;
       [| destruct (upload_ok env (paths_original gp)); reflexivity].
  all: destruct (truthy (paths_webp gp)) eqn:Htw, (truthy (paths_avif gp)) eqn:Hta.
  all: branch; check_trace.
Qed.

(** A record in the database after an upload: it was there before, or its
    locations are in the store. *)
Ltac backed :=
  unfold world, after, saved, written; simpl; intros Hin;
  first
    [ now left
    | apply in_app_or in Hin as [Hin | [<- | []]];
      [ now left
      | right; let k := fresh "k" in let Hk := fresh "Hk" in
        intros k Hk; each_location Hk; stored ] ].

Lemma upload_world_backed lib env req w r :
  In r (db (world (uploadSingleHandler lib env req w))) ->
  In r (db w) \/
  forall k, In k (locations r) ->
    is_Some (bucket (world (uploadSingleHandler lib env req w)) !! k).
Proof.
  destruct (upload_not_accepted lib env req w)
    as [(fd & file & info & Hacc) | (-> & _)]; [|now left].
  set (gp := allocated lib env info).
  destruct (truthy (paths_original gp)) eqn:Hto.
  all: destruct (pass_through_format (info_format info)) eqn:Hpt.
  1,3: rewrite (upload_original_only lib env req w fd file info
                  (as_is file (info_format info)) Hacc)
         by (intros p l0 w0; now apply fill_variants_pass_through);
       fold gp; unfold record_of, build_metadata, as_is;
       destruct (upload_ok env _), (expiry_valid env (minutes_of lib fd)),
         (saveImage_ok env),
         (String.eqb (info_format info) "webp"),
         (String.eqb (info_format info) "avif"); backed.
  all: destruct (IMAGES env) as [compress|] eqn:Him.
  2,4: rewrite (upload_skipped lib env req w fd file info Hacc Hpt (or_introl Him));
       fold gp; unfold record_of, build_metadata, with_markers;
       destruct (upload_ok env _), (expiry_valid env (minutes_of lib fd)),
         (saveImage_ok env),
         (not_false (generateWebp (options_of lib fd))),
         (not_false (generateAvif (options_of lib fd))); backed.
  all: destruct (Z.le_gt_cases (file_size file) CLOUDFLARE_IMAGES_MAX_BYTES)
         as [Hle | Hbig].
  2,4: rewrite (upload_skipped lib env req w fd file info Hacc Hpt (or_intror Hbig));
       fold gp; unfold record_of, build_metadata, with_markers;
       destruct (upload_ok env _), (expiry_valid env (minutes_of lib fd)),
         (saveImage_ok env),
         (not_false (generateWebp (options_of lib fd))),
         (not_false (generateAvif (options_of lib fd))); backed.
  all: on_transcoding_path Hacc Hpt Him Hle; fold gp;
       destruct (compress _ _ _) as [cr|]; simpl;
       [| destruct (upload_ok env (paths_original gp)); now left].
  all: destruct (truthy (paths_webp gp)) eqn:Htw, (truthy (paths_avif gp)) eqn:Hta.
  all: branch; backed.
Qed.

(** C6. In every upload, fault-free or not, the metadata record is saved
    only after the write of the original and the write of every derived
    variant the record references have completed; and every record the
    upload adds to the database references only locations the object store
    holds. *)
Theorem metadata_saved_after_writes (lib : Lib) (env : Env) (req : UploadRequest)
    (w : World) :
  let o := uploadSingleHandler lib env req w in
  (forall t1 r t2, trace o = t1 ++ EvSaveImage r :: t2 ->
     forall k, In k (locations r) -> In (EvPutDone k) t1) /\
  (forall r, In r (db (world o)) ->
     In r (db w) \/
     forall k, In k (locations r) -> is_Some (bucket (world o) !! k)).
Proof.
  intros o. split.
  - intros t1 r t2 Ht k Hk.
    destruct (saves_follow_writes_sound (trace o) []
                (upload_trace_checked lib env req w) t1 r t2 Ht k Hk) as [[]|H].
    exact H.
  - intros r. apply upload_world_backed.
Qed.

(** ** The theorems at work on the sample data *)

Lemma webp_accepted :
  Accepted Sample.lib (Sample.upload_of Sample.webp_file "4")
    [("image", EntryFile Sample.webp_file)] Sample.webp_file
    (mkImageInfo "webp" 500 800 "portrait").
Proof.
  apply sample_accepted; [reflexivity | vm_compute; discriminate | reflexivity ..].
Qed.

Lemma big_png_accepted :
  Accepted Sample.lib (Sample.upload_of Sample.big_png_file "11534336")
    [("image", EntryFile Sample.big_png_file)] Sample.big_png_file
    (mkImageInfo "png" 800 600 "landscape").
Proof.
  apply sample_accepted; [reflexivity | vm_compute; discriminate | reflexivity ..].
Qed.

(** A webp upload is stored as it is: its webp slot is the original. *)
Lemma pass_through_upload_witness :
  let o := uploadSingleHandler Sample.lib Sample.env_ok
             (Sample.upload_of Sample.webp_file "4") Sample.empty_world in
  ~ In EvTranscodeStart (trace o) /\
  exists r,
    trace o = [EvReadBody; EvPutStart "original/portrait/id1.webp";
               EvPutDone "original/portrait/id1.webp"; EvSaveImage r;
               EvInvalidate] /\
    stored_as_is "webp" "original/portrait/id1.webp" 4 r.
Proof.
  intros o.
  destruct (pass_through_upload Sample.lib Sample.env_ok
              (Sample.upload_of Sample.webp_file "4") Sample.empty_world
              _ _ _ webp_accepted eq_refl) as (Hno & _ & Hst & Hok).
  split; [exact Hno|].
  destruct (Hok eq_refl eq_refl eq_refl) as (r & Htr & _).
  exists r. split; [exact Htr|].
  apply Hst. rewrite Htr. simpl. auto.
Defined.

(** An 11MB png is not transcoded although a transcoder is configured:
    both derived slots are markers. *)
Lemma skipped_transcoding_upload_witness :
  let o := uploadSingleHandler Sample.lib Sample.env_ok
             (Sample.upload_of Sample.big_png_file "11534336")
             Sample.empty_world in
  ~ In EvTranscodeStart (trace o) /\
  exists r,
    In (EvSaveImage r) (trace o) /\
    marked true true "original/landscape/id1.png" r.
Proof.
  intros o.
  destruct (skipped_transcoding_upload Sample.lib Sample.env_ok
              (Sample.upload_of Sample.big_png_file "11534336") Sample.empty_world
              _ _ _ big_png_accepted eq_refl
              ltac:(right; vm_compute; reflexivity))
    as (Hno & Hm & Hok).
  split; [exact Hno|].
  destruct (Hok eq_refl eq_refl eq_refl) as (r & Htr & _).
  assert (Hin : In (EvSaveImage r) (trace o))
    by (subst o; rewrite Htr; simpl; auto).
  exists r. split; [exact Hin | exact (Hm r Hin)].
Defined.

(** A declared length of 70MB + 1 is rejected unread; the 11MB png is
    accepted and stored. *)
Lemma size_limits_witness :
  uploadSingleHandler Sample.lib Sample.env_ok
    (mkUploadRequest (Some "73400321") None) Sample.empty_world
  = (errorResponse "File too large. Maximum size is 70MB" (Some 413),
     Sample.empty_world, []) /\
  is_success
    (response (uploadSingleHandler Sample.lib Sample.env_ok
                 (Sample.upload_of Sample.big_png_file "11534336")
                 Sample.empty_world)) = true.
Proof.
  split.
  - apply (proj1 (size_limits Sample.lib Sample.env_ok
                    (mkUploadRequest (Some "73400321") None) Sample.empty_world)
             "73400321" 73400321 eq_refl eq_refl).
    vm_compute. reflexivity.
  - destruct (proj2 (size_limits Sample.lib Sample.env_ok
                       (Sample.upload_of Sample.big_png_file "11534336")
                       Sample.empty_world)
                _ _ _ big_png_accepted ltac:(vm_compute; reflexivity))
      as (_ & _ & Hok).
    exact (Hok eq_refl eq_refl eq_refl).
Defined.

(** Of three expired images the second keeps its row: two are counted, the
    sweep still reaches the third, the bytes of all three are gone, and the
    database keeps the row of the second and that of the jpeg, which is not
    expired. *)
Lemma cleanup_sweep_witness :
  let o := cleanupHandler Sample.env_sweep Sample2.sweep_start in
  response o = successResponse (PCleanup 2) /\
  trace o
  = [EvListExpired;
     EvDeleteMany ["original/landscape/a.png"; "webp/a.webp"; "avif/a.avif"] true;
     EvDeleteImage "a" true;
     EvDeleteMany ["original/landscape/b.gif"] true;
     EvDeleteImage "b" false;
     EvDeleteMany ["original/portrait/c.webp"; "original/portrait/c.webp"] true;
     EvDeleteImage "c" true] /\
  bucket (world o) !! "webp/a.webp" = None /\
  bucket (world o) !! "original/landscape/j.jpeg" = bucket Sample2.sweep_start
                                                      !! "original/landscape/j.jpeg" /\
  db (world o) = [Sample.expired_b; Sample2.jpeg_record].
Proof.
  intros o.
  destruct (cleanup_sweep Sample.env_sweep Sample2.sweep_start
              [Sample.expired_a; Sample.expired_b; Sample.expired_c] eq_refl)
    as (Hr & Ht & _ & _ & Hgone & Hkept & Hdb).
  split; [exact Hr|]. split; [exact Ht|]. split; [|split].
  - apply (Hgone Sample.expired_a); [simpl; auto | reflexivity | simpl; auto].
  - apply Hkept.
    intros image [<- | [<- | [<- | []]]] _; simpl;
      intros H; repeat (destruct H as [H|H]; [discriminate H|]); exact H.
  - exact (eq_trans Hdb eq_refl).
Defined.

(** No record matches: the response is a 404. *)
Lemma not_found_exactly_witness :
  is_404 (response (randomHandler Sample.lib Sample.env_ok
                      (Sample.random_req None None) Sample.empty_world)) = true.
Proof.
  apply (proj2 (not_found_exactly Sample.lib Sample.env_ok
                  (Sample.random_req None None) Sample.empty_world)).
  left. reflexivity.
Defined.

(** The fault-free upload of the 3-byte png: both variants are written
    before the record is saved. *)
Lemma metadata_saved_after_writes_witness :
  let o := uploadSingleHandler Sample.lib Sample.env_ok
             (Sample.upload_of Sample.png_file "3") Sample.empty_world in
  let r := mkImageMetadata "id1" "a.png" 1000 None "landscape" [] "png" 800 600
             (mkPaths "original/landscape/id1.png" "webp/id1.webp" "avif/id1.avif")
             (mkSizes 3 1 2) in
  let t1 := [EvReadBody; EvPutStart "original/landscape/id1.png";
             EvTranscodeStart; EvPutDone "original/landscape/id1.png";
             EvTranscodeDone true; EvPutStart "webp/id1.webp";
             EvPutStart "avif/id1.avif"; EvPutDone "webp/id1.webp";
             EvPutDone "avif/id1.avif"] in
  trace o = t1 ++ EvSaveImage r :: [EvInvalidate] /\
  forall k, In k (locations r) -> In (EvPutDone k) t1.
Proof.
  intros o r t1.
  assert (Htr : trace o = t1 ++ EvSaveImage r :: [EvInvalidate])
    by (vm_compute; reflexivity).
  split; [exact Htr|].
  exact (proj1 (metadata_saved_after_writes Sample.lib Sample.env_ok
                  (Sample.upload_of Sample.png_file "3") Sample.empty_world)
           t1 r [EvInvalidate] Htr).
Defined.

(** * Further properties of the handlers *)

(** ** Uploads rejected by validation *)

(** X1. A request whose form has no file under [image] (the field is
    missing or is a plain string) is answered "No file provided" with the
    default error status, after the body has been read and without touching
    the stores. *)
Theorem upload_without_file (lib : Lib) (env : Env) (req : UploadRequest)
    (w : World) (fd : FormData) :
  exceeds_declared (req_contentLength req) = false ->
  req_body req = Some fd ->
  (forall f, formData_get fd "image" <> Some (EntryFile f)) ->
  uploadSingleHandler lib env req w
  = (errorResponse "No file provided" None, w, [EvReadBody]).
Proof.
  intros Hd Hb Hf. rewrite upload_run, Hd, Hb.
  destruct (formData_get fd "image") as [[s|f]|]; try reflexivity.
  now destruct (Hf f).
Qed.

Lemma upload_without_file_witness :
  uploadSingleHandler Sample.lib Sample.env_ok
    (mkUploadRequest None (Some [("tags", EntryString "cat"); ("image", EntryString "x")]))
    Sample.empty_world
  = (errorResponse "No file provided" None, Sample.empty_world, [EvReadBody]).
Proof.
  apply (upload_without_file Sample.lib Sample.env_ok
           (mkUploadRequest None
              (Some [("tags", EntryString "cat"); ("image", EntryString "x")]))
           Sample.empty_world
           [("tags", EntryString "cat"); ("image", EntryString "x")]);
    [reflexivity | reflexivity | intros f; simpl; discriminate].
Defined.

(** X2. A body that cannot be parsed as a form is answered with status 400,
    by the inner [catch] and not by the generic failure of the outer one; the
    stores are untouched. *)
Theorem upload_unparsable_body (lib : Lib) (env : Env) (req : UploadRequest)
    (w : World) :
  exceeds_declared (req_contentLength req) = false ->
  req_body req = None ->
  uploadSingleHandler lib env req w
  = (errorResponse "Failed to parse form data. File may be too large or corrupted."
       (Some 400), w, [EvReadBody]).
Proof.
  intros Hd Hb. now rewrite upload_run, Hd, Hb.
Qed.

Lemma upload_unparsable_body_witness :
  uploadSingleHandler Sample.lib Sample.env_ok
    (mkUploadRequest (Some "12") None) Sample.empty_world
  = (errorResponse "Failed to parse form data. File may be too large or corrupted."
       (Some 400), Sample.empty_world, [EvReadBody]).
Proof.
  apply (upload_unparsable_body Sample.lib Sample.env_ok
           (mkUploadRequest (Some "12") None) Sample.empty_world);
    reflexivity.
Defined.

(** X3. The size of the file itself is checked again after the body has been
    read: a file above 70MB is answered 413 even when the Content-Length
    header is absent, unparsable or declares less, and nothing is inspected
    or stored. *)
Theorem upload_oversized_file (lib : Lib) (env : Env) (req : UploadRequest)
    (w : World) (fd : FormData) (file : File) :
  exceeds_declared (req_contentLength req) = false ->
  req_body req = Some fd ->
  formData_get fd "image" = Some (EntryFile file) ->
  MAX_FILE_SIZE < file_size file ->
  uploadSingleHandler lib env req w
  = (errorResponse "File too large. Maximum size is 70MB" (Some 413), w,
     [EvReadBody]).
Proof.
  intros Hd Hb Hf Hs. rewrite upload_run, Hd, Hb, Hf, process_file_run.
  assert (Hgt : (file_size file >? MAX_FILE_SIZE) = true) by lia.
  now rewrite Hgt.
Qed.

Lemma upload_oversized_file_witness :
  uploadSingleHandler Sample.lib Sample.env_ok
    (mkUploadRequest (Some "not a number")
       (Some [("image", EntryFile Sample2.huge_file)]))
    Sample.empty_world
  = (errorResponse "File too large. Maximum size is 70MB" (Some 413),
     Sample.empty_world, [EvReadBody]).
Proof.
  apply (upload_oversized_file Sample.lib Sample.env_ok
           (mkUploadRequest (Some "not a number")
              (Some [("image", EntryFile Sample2.huge_file)]))
           Sample.empty_world
           [("image", EntryFile Sample2.huge_file)] Sample2.huge_file);
    [reflexivity | reflexivity | reflexivity | vm_compute; reflexivity].
Defined.

(** X4. A file whose bytes cannot be inspected ends in the generic failure,
    and a file of a format that is not supported is answered with a message
    naming the detected format; in both cases no identifier is allocated and
    nothing is written. *)
Theorem upload_uninspectable_or_unsupported (lib : Lib) (env : Env)
    (req : UploadRequest) (w : World) (fd : FormData) (file : File) :
  exceeds_declared (req_contentLength req) = false ->
  req_body req = Some fd ->
  formData_get fd "image" = Some (EntryFile file) ->
  file_size file <= MAX_FILE_SIZE ->
  (getImageInfo lib (file_data file) = None ->
   uploadSingleHandler lib env req w
   = (errorResponse "Upload failed" None, w, [EvReadBody])) /\
  (forall info, getImageInfo lib (file_data file) = Some info ->
     isSupportedFormat lib (info_format info) = false ->
     uploadSingleHandler lib env req w
     = (errorResponse ("Unsupported format: " +:+ info_format info) None, w,
        [EvReadBody])).
Proof.
  intros Hd Hb Hf Hs.
  assert (Hle : (file_size file >? MAX_FILE_SIZE) = false) by lia.
  split.
  - intros Hi. now rewrite upload_run, Hd, Hb, Hf, process_file_run, Hle, Hi.
  - intros info Hi Hsup.
    now rewrite upload_run, Hd, Hb, Hf, process_file_run, Hle, Hi, Hsup.
Qed.

Lemma upload_uninspectable_or_unsupported_witness :
  uploadSingleHandler Sample2.lib_bmp Sample.env_ok
    (Sample2.bare_upload Sample2.junk_file) Sample.empty_world
  = (errorResponse "Upload failed" None, Sample.empty_world, [EvReadBody]) /\
  uploadSingleHandler Sample2.lib_bmp Sample.env_ok
    (Sample2.bare_upload Sample2.bmp_file) Sample.empty_world
  = (errorResponse "Unsupported format: bmp" None, Sample.empty_world, [EvReadBody]).
Proof.
  split.
  - apply (proj1 (upload_uninspectable_or_unsupported Sample2.lib_bmp Sample.env_ok
                    (Sample2.bare_upload Sample2.junk_file) Sample.empty_world
                    [("image", EntryFile Sample2.junk_file)] Sample2.junk_file
                    eq_refl eq_refl eq_refl ltac:(vm_compute; discriminate))).
    reflexivity.
  - apply (proj2 (upload_uninspectable_or_unsupported Sample2.lib_bmp Sample.env_ok
                    (Sample2.bare_upload Sample2.bmp_file) Sample.empty_world
                    [("image", EntryFile Sample2.bmp_file)] Sample2.bmp_file
                    eq_refl eq_refl eq_refl ltac:(vm_compute; discriminate))
             (mkImageInfo "bmp" 1 1 "landscape")); reflexivity.
Defined.

(** X5. The Content-Length header only gates the request: a header that is
    absent, empty, not a number or within the maximum lets the body be read,
    and from there on the outcome does not depend on the header. *)
Theorem content_length_only_gates (lib : Lib) (env : Env) (w : World)
    (h1 h2 : option string) (body : option FormData) :
  exceeds_declared h1 = false ->
  exceeds_declared h2 = false ->
  uploadSingleHandler lib env (mkUploadRequest h1 body) w
  = uploadSingleHandler lib env (mkUploadRequest h2 body) w /\
  exists rest, trace (uploadSingleHandler lib env (mkUploadRequest h1 body) w)
               = EvReadBody :: rest.
Proof.
  intros H1 H2. rewrite !upload_run. simpl. rewrite H1, H2. split; [reflexivity|].
  destruct body as [fd|]; [|eexists; reflexivity].
  unfold after, trace. simpl. eexists. reflexivity.
Qed.

Lemma content_length_only_gates_witness :
  let body := Some [("image", EntryFile Sample.png_file)] in
  uploadSingleHandler Sample.lib Sample.env_ok
    (mkUploadRequest (Some "abc") body) Sample.empty_world
  = uploadSingleHandler Sample.lib Sample.env_ok
      (mkUploadRequest None body) Sample.empty_world.
Proof.
  intros body.
  exact (proj1 (content_length_only_gates Sample.lib Sample.env_ok
                  Sample.empty_world (Some "abc") None body eq_refl eq_refl)).
Defined.

(** ** Every path of an accepted upload *)

(** A request that is not accepted is answered with an error and does no
    I/O beyond reading the body. *)
Lemma upload_rejected_outcome lib env req w :
  (exists fd file info, Accepted lib req fd file info) \/
  (exists msg st tr,
     uploadSingleHandler lib env req w = (errorResponse msg st, w, tr) /\
     (tr = [] \/ tr = [EvReadBody])).
Proof.
  rewrite upload_run.
  destruct (exceeds_declared (req_contentLength req)) eqn:Hd;
    [right; unfold too_large; eauto 7|].
  destruct (req_body req) as [fd|] eqn:Hb; [|right; eauto 7].
  destruct (formData_get fd "image") as [[s|file]|] eqn:Hf;
    [right; unfold after; simpl; eauto 7 | | right; unfold after; simpl; eauto 7].
  rewrite process_file_run.
  destruct (file_size file >? MAX_FILE_SIZE) eqn:Hs;
    [right; unfold after, too_large; simpl; eauto 7|].
  destruct (getImageInfo lib (file_data file)) as [info|] eqn:Hi;
    [|right; unfold after; simpl; eauto 7].
  destruct (isSupportedFormat lib (info_format info)) eqn:Hsup;
    [|right; unfold after; simpl; eauto 7].
  left. exists fd, file, info. split; auto. lia.
Qed.

(** Decide every test an explicit outcome still depends on. *)
Ltac decide_tests :=
  repeat match goal with
    | |- context [settle_upload] =>
        unfold settle_upload, write_object, bind, emit, ret, throw,
          get_world, set_world; simpl
    | |- context [upload_ok ?e ?k] => destruct (upload_ok e k) eqn:?; simpl
    | |- context [not_false ?x] => destruct (not_false x) eqn:?; simpl
    | |- context [cr_webp ?c] => destruct (cr_webp c) eqn:?; simpl
    | |- context [cr_avif ?c] => destruct (cr_avif c) eqn:?; simpl
    | |- context [expiry_valid ?e ?m] => destruct (expiry_valid e m) eqn:?; simpl
    | |- context [saveImage_ok ?e] => destruct (saveImage_ok e) eqn:?; simpl
    | |- context [String.eqb (info_format ?i) ?s] =>
        destruct (String.eqb (info_format i) s) eqn:?; simpl
    | H : truthy ?k = _ |- context [truthy ?k] => rewrite H; simpl
    end.

(** Decide an accepted upload down to its explicit outcomes and run [leaf]
    on each: the pass-through branch, the two ways of skipping the
    transcoder, and the transcoding path. *)
Ltac accepted_paths lib env req w fd file info Hacc leaf :=
  let gp := fresh "gp" in
  set (gp := allocated lib env info) in *;
  destruct (pass_through_format (info_format info)) eqn:Hpt;
  [ rewrite (upload_original_only lib env req w fd file info
               (as_is file (info_format info)) Hacc
               (fun p l0 w0 => fill_variants_pass_through env file info
                                 (options_of lib fd) (allocated lib env info)
                                 p l0 w0 Hpt));
    fold gp; unfold record_of, build_metadata, as_is; simpl;
    decide_tests; leaf
  | destruct (IMAGES env) as [compress|] eqn:Him;
    [ destruct (Z.le_gt_cases (file_size file) CLOUDFLARE_IMAGES_MAX_BYTES)
        as [Hle | Hbig];
      [ on_transcoding_path Hacc Hpt Him Hle; fold gp;
        destruct (compress (file_data file) (info_format info) (options_of lib fd))
          as [cr|] eqn:Hcr;
        simpl; decide_tests; leaf
      | rewrite (upload_skipped lib env req w fd file info Hacc Hpt (or_intror Hbig));
        fold gp; unfold record_of, build_metadata, with_markers; simpl;
        decide_tests; leaf ]
    | rewrite (upload_skipped lib env req w fd file info Hacc Hpt (or_introl Him));
      fold gp; unfold record_of, build_metadata, with_markers; simpl;
      decide_tests; leaf ] ].

(** Facts about one explicit outcome. *)
Ltac outcome_facts :=
  unfold trace, world, response, after, saved, written; simpl;
  repeat match goal with
    | |- _ /\ _ => split
    | |- _ <-> _ => split
    | |- forall _, _ => intro
    | H : exists _, _ |- _ => destruct H
    | H : _ /\ _ |- _ => destruct H
    | H : In _ (_ :: _) |- _ => in_trace H
    | H : _ \/ _ |- _ => destruct H as [H|H]; [try discriminate H|]
    | H : False |- _ => destruct H
    | H : successResponse _ = successResponse _ |- _ => injection H as <-
    end;
  try discriminate; try congruence; try contradiction; try reflexivity;
  try find_event; try (eexists; find_event).

(** X6. An upload answers with success exactly when it saved a record, and
    exactly then it schedules the cache invalidation; a failed upload adds no
    record; a successful one adds exactly the record whose identifier,
    sizes, format, tags, orientation and expiry the response reports. *)
Theorem upload_success_iff_saved (lib : Lib) (env : Env) (req : UploadRequest)
    (w : World) :
  let o := uploadSingleHandler lib env req w in
  (is_success (response o) = true <-> exists r, In (EvSaveImage r) (trace o)) /\
  (is_success (response o) = true <-> In EvInvalidate (trace o)) /\
  (is_success (response o) = false -> db (world o) = db w) /\
  (forall result, response o = successResponse (PUpload result) ->
     exists r,
       db (world o) = db w ++ [r] /\ In (EvSaveImage r) (trace o) /\
       res_id result = id r /\ res_status result = "success" /\
       res_sizes result = sizes r /\ res_format result = format r /\
       res_tags result = tags r /\ res_orientation result = orientation r /\
       res_expiryTime result = expiryTime r).
Proof.
  intros o. subst o.
  destruct (upload_rejected_outcome lib env req w)
    as [(fd & file & info & Hacc) | (msg & st & tr & -> & [-> | ->])];
    [| outcome_facts ..].
  accepted_paths lib env req w fd file info Hacc outcome_facts.
  all: try (eexists; repeat split; find_event).
Qed.

(** The fault-free png upload succeeds and saved its record; with a failing
    metadata save it fails and schedules no invalidation. *)
Lemma upload_success_iff_saved_witness :
  (exists r, In (EvSaveImage r)
               (trace (uploadSingleHandler Sample.lib Sample.env_ok
                         (Sample.upload_of Sample.png_file "3")
                         Sample.empty_world))) /\
  ~ In EvInvalidate
      (trace (uploadSingleHandler Sample.lib Sample2.env_save_fails
                (Sample.upload_of Sample.png_file "3") Sample.empty_world)).
Proof.
  split.
  - apply (proj1 (upload_success_iff_saved Sample.lib Sample.env_ok
                    (Sample.upload_of Sample.png_file "3") Sample.empty_world)).
    reflexivity.
  - intros Hin.
    apply (proj1 (proj2 (upload_success_iff_saved Sample.lib Sample2.env_save_fails
                           (Sample.upload_of Sample.png_file "3")
                           Sample.empty_world))) in Hin.
    discriminate Hin.
Defined.

Lemma accepted_unique lib req fd file info fd' file' info' :
  Accepted lib req fd file info -> Accepted lib req fd' file' info' ->
  fd' = fd /\ file' = file /\ info' = info.
Proof.
  intros [_ Hb Hf _ Hi _] [_ Hb' Hf' _ Hi' _].
  rewrite Hb in Hb'. injection Hb' as <-.
  rewrite Hf in Hf'. injection Hf' as <-.
  rewrite Hi in Hi'. injection Hi' as <-. auto.
Qed.

(** Lookups in a store after writes to other keys. *)
Ltac foreign_key :=
  unfold trace, world, response, after, saved, written, allocated_keys; simpl;
  intros;
  repeat match goal with
    | H : ~ (_ \/ _) |- _ => apply Decidable.not_or in H; destruct H
    end;
  repeat match goal with
    | g := allocated _ _ _ |- _ => subst g
    end;
  rewrite ?lookup_insert_ne by congruence; reflexivity.

Ltac still_stored :=
  unfold trace, world, response, after, saved, written; simpl; intros;
  repeat (apply lookup_insert_is_Some'; right); assumption.

(** X7. An upload only ever adds to the stores: every object present before
    is still present, keys other than the three locations allocated for the
    upload are left as they were, and the database is unchanged or extended
    by one record. *)
Theorem upload_only_adds (lib : Lib) (env : Env) (req : UploadRequest) (w : World) :
  let o := uploadSingleHandler lib env req w in
  (forall k, is_Some (bucket w !! k) -> is_Some (bucket (world o) !! k)) /\
  (forall fd file info k,
     Accepted lib req fd file info ->
     ~ In k (allocated_keys lib env info) ->
     bucket (world o) !! k = bucket w !! k) /\
  (db (world o) = db w \/ exists r, db (world o) = db w ++ [r]).
Proof.
  intros o. subst o.
  destruct (upload_rejected_outcome lib env req w)
    as [(fd & file & info & Hacc) | (msg & st & tr & -> & _)].
  2:{ unfold world. simpl. split; [auto|]. split; [reflexivity | now left]. }
  split; [|split].
  - accepted_paths lib env req w fd file info Hacc still_stored.
  - intros fd' file' info' k Hacc' Hk.
    destruct (accepted_unique _ _ _ _ _ _ _ _ Hacc Hacc') as (-> & -> & ->).
    clear Hacc'. revert k Hk.
    accepted_paths lib env req w fd file info Hacc foreign_key.
  - accepted_paths lib env req w fd file info Hacc
      ltac:(unfold world, after, saved, written; simpl;
            first [now left | right; eexists; reflexivity]).
Qed.

Lemma upload_only_adds_witness :
  let w := mkWorld {["other/key" := [Byte.x07]]} [] in
  let o := uploadSingleHandler Sample.lib Sample.env_ok
             (Sample.upload_of Sample.png_file "3") w in
  bucket (world o) !! "other/key" = Some [Byte.x07].
Proof.
  intros w o.
  assert (Hk : ~ In "other/key"
                 (allocated_keys Sample.lib Sample.env_ok
                    (mkImageInfo "png" 800 600 "landscape")))
    by (simpl; intros [H | [H | [H | []]]]; discriminate H).
  pose proof (proj1 (proj2 (upload_only_adds Sample.lib Sample.env_ok
                              (Sample.upload_of Sample.png_file "3") w))
                _ _ _ "other/key" png_accepted Hk) as E.
  exact (eq_trans E eq_refl).
Defined.

(** X8. When the write of the original fails, the upload fails at once: no
    derived variant is written, nothing is saved and the stores are
    untouched; on the transcoding path the transcoder has already been
    called, and its result is never awaited. *)
Theorem original_write_failure (lib : Lib) (env : Env) (req : UploadRequest)
    (w : World) (fd : FormData) (file : File) (info : ImageInfo) :
  Accepted lib req fd file info ->
  upload_ok env (paths_original (allocated lib env info)) = false ->
  uploadSingleHandler lib env req w
  = (errorResponse "Upload failed" None, w,
     [EvReadBody; EvPutStart (paths_original (allocated lib env info))]
     ++ (if on_transcoding env file info then [EvTranscodeStart] else [])
     ++ [EvPutFailed (paths_original (allocated lib env info))]).
Proof.
  intros Hacc Hfail. unfold on_transcoding. revert Hfail.
  accepted_paths lib env req w fd file info Hacc
    ltac:(intros Hfail; try discriminate Hfail;
          try match goal with
            | Hbig : CLOUDFLARE_IMAGES_MAX_BYTES < file_size file |- _ =>
                rewrite (proj2 (Z.leb_gt _ _) Hbig)
            end;
          unfold after; simpl; try reflexivity).
Qed.

Lemma original_write_failure_witness :
  uploadSingleHandler Sample.lib
    (Sample.env (Some Sample.both) "original/landscape/id1.png" None
       Sample.ok_upstream [] "")
    (Sample.upload_of Sample.png_file "3") Sample.empty_world
  = (errorResponse "Upload failed" None, Sample.empty_world,
     [EvReadBody; EvPutStart "original/landscape/id1.png"; EvTranscodeStart;
      EvPutFailed "original/landscape/id1.png"]).
Proof.
  apply (original_write_failure Sample.lib
           (Sample.env (Some Sample.both) "original/landscape/id1.png" None
              Sample.ok_upstream [] "")
           (Sample.upload_of Sample.png_file "3") Sample.empty_world
           _ _ _ png_accepted).
  reflexivity.
Defined.

(** A completed write, found in an explicit outcome. *)
Ltac write_kept :=
  unfold trace, world, response, after, saved, written; simpl;
  let k := fresh "k" in let H := fresh "H" in
  intros k H; in_trace H; injection H as <-; stored.

(** X9. Nothing is rolled back: whatever the outcome of the upload, every
    write that completed is in the object store afterwards, also when a
    later write or the metadata save failed and the request was answered
    with an error. *)
Theorem upload_keeps_completed_writes (lib : Lib) (env : Env)
    (req : UploadRequest) (w : World) :
  let o := uploadSingleHandler lib env req w in
  forall k, In (EvPutDone k) (trace o) -> is_Some (bucket (world o) !! k).
Proof.
  intros o. subst o.
  destruct (upload_rejected_outcome lib env req w)
    as [(fd & file & info & Hacc) | (msg & st & tr & -> & [-> | ->])];
    [| intros k H; in_trace H ..].
  accepted_paths lib env req w fd file info Hacc write_kept.
Qed.

(** The png whose metadata cannot be saved: the request fails and the three
    objects stay behind. *)
Lemma upload_keeps_completed_writes_witness :
  let o := uploadSingleHandler Sample.lib Sample2.env_save_fails
             (Sample.upload_of Sample.png_file "3") Sample.empty_world in
  response o = errorResponse "Upload failed" None /\
  is_Some (bucket (world o) !! "webp/id1.webp").
Proof.
  intros o. split; [reflexivity|].
  apply (upload_keeps_completed_writes Sample.lib Sample2.env_save_fails
           (Sample.upload_of Sample.png_file "3") Sample.empty_world).
  vm_compute. auto 10.
Defined.

(** X10. On the transcoding path the transcoder is called exactly once,
    after the write of the original has been issued and before it is
    awaited; a derived write is issued only once the original has been
    written and the transcoder has answered. *)
Theorem transcoder_runs_beside_original (lib : Lib) (env : Env)
    (req : UploadRequest) (w : World) (fd : FormData) (file : File)
    (info : ImageInfo) :
  Accepted lib req fd file info ->
  on_transcoding env file info = true ->
  let orig := paths_original (allocated lib env info) in
  exists rest,
    trace (uploadSingleHandler lib env req w)
    = [EvReadBody; EvPutStart orig; EvTranscodeStart] ++ rest /\
    ~ In EvTranscodeStart rest /\
    (puts rest <> [] ->
     exists rest', rest = EvPutDone orig :: EvTranscodeDone true :: rest').
Proof.
  intros Hacc Hon orig. subst orig. revert Hon. unfold on_transcoding.
  accepted_paths lib env req w fd file info Hacc
    ltac:(try match goal with
            | Hbig : CLOUDFLARE_IMAGES_MAX_BYTES < file_size file |- _ =>
                rewrite (proj2 (Z.leb_gt _ _) Hbig)
            end;
          simpl; intros Hon; try discriminate Hon;
          (unfold trace, after; simpl; eexists; (split; [reflexivity|]);
           (split; [intros H; in_trace H
                   | simpl; intros Hp; try congruence; eexists; reflexivity]))).
Qed.

Lemma transcoder_runs_beside_original_witness :
  exists rest,
    trace (uploadSingleHandler Sample.lib Sample.env_ok
             (Sample.upload_of Sample.png_file "3") Sample.empty_world)
    = [EvReadBody; EvPutStart "original/landscape/id1.png"; EvTranscodeStart]
      ++ rest /\
    ~ In EvTranscodeStart rest.
Proof.
  destruct (transcoder_runs_beside_original Sample.lib Sample.env_ok
              (Sample.upload_of Sample.png_file "3") Sample.empty_world
              _ _ _ png_accepted eq_refl) as (rest & Ht & Hn & _).
  exists rest. split; [exact Ht | exact Hn].
Defined.

(** X11. On the transcoding path, once the original is written and the
    transcoder has answered, the writes issued are the original, then webp,
    then avif, each derived one only when it is both wanted and produced: a
    variant the request does not want is never written, even when the
    transcoder returns it. *)
Theorem derived_writes_issued (lib : Lib) (env : Env) (req : UploadRequest)
    (w : World) (fd : FormData) (file : File) (info : ImageInfo)
    (compress : Blob -> string -> CompressionOptions -> option CompressionResult)
    (cr : CompressionResult) :
  Accepted lib req fd file info ->
  pass_through_format (info_format info) = false ->
  IMAGES env = Some compress ->
  file_size file <= CLOUDFLARE_IMAGES_MAX_BYTES ->
  upload_ok env (paths_original (allocated lib env info)) = true ->
  compress (file_data file) (info_format info) (options_of lib fd) = Some cr ->
  puts (trace (uploadSingleHandler lib env req w))
  = paths_original (allocated lib env info)
    :: derived_put (wantsWebp lib fd) (cr_webp cr) (paths_webp (allocated lib env info))
    ++ derived_put (wantsAvif lib fd) (cr_avif cr) (paths_avif (allocated lib env info)).
Proof.
  intros Hacc Hpt Him Hle Huo Hcr.
  on_transcoding_path Hacc Hpt Him Hle. rewrite Hcr, Huo. simpl.
  unfold derived_put, wantsWebp, wantsAvif, trace, after.
  decide_tests; reflexivity.
Qed.

(** The transcoder produces both variants, the request wants no avif. *)
Lemma derived_writes_issued_witness :
  puts (trace (uploadSingleHandler Sample2.lib_no_avif Sample.env_ok
                 (Sample.upload_of Sample.png_file "3") Sample.empty_world))
  = ["original/landscape/id1.png"; "webp/id1.webp"].
Proof.
  apply (derived_writes_issued Sample2.lib_no_avif Sample.env_ok
           (Sample.upload_of Sample.png_file "3") Sample.empty_world
           [("image", EntryFile Sample.png_file)] Sample.png_file
           (mkImageInfo "png" 800 600 "landscape") Sample.both
           (mkCompressionResult (Some (mkEncoded [Byte.x01] 1))
              (Some (mkEncoded [Byte.x02; Byte.x03] 2))));
    try reflexivity.
  - split; try reflexivity. vm_compute. discriminate.
  - vm_compute. discriminate.
Defined.

(** X12. Whatever path the upload takes, the record it saves carries the
    generated identifier, the file's name and size, the detected format,
    orientation and dimensions, the original's allocated location, and an
    expiry only when [expiryMinutes] is positive: then the upload time plus
    that many minutes, otherwise none. *)
Theorem saved_record_fields (lib : Lib) (env : Env) (req : UploadRequest)
    (w : World) (fd : FormData) (file : File) (info : ImageInfo)
    (r : ImageMetadata) :
  Accepted lib req fd file info ->
  In (EvSaveImage r) (trace (uploadSingleHandler lib env req w)) ->
  id r = generateImageId env /\
  originalName r = file_name file /\
  uploadTime r = now env /\
  expiryTime r = expiry_of env (parseNumber lib (formData_get fd "expiryMinutes") 0) /\
  orientation r = info_orientation info /\
  tags r = parseTags lib (formData_get fd "tags") /\
  format r = info_format info /\
  width r = info_width info /\ height r = info_height info /\
  paths_original (paths r) = paths_original (allocated lib env info) /\
  sizes_original (sizes r) = file_size file.
Proof.
  intros Hacc. revert r.
  accepted_paths lib env req w fd file info Hacc
    ltac:(unfold trace, after; simpl;
          let r := fresh "r" in let H := fresh "H" in
          intros r H; in_trace H; injection H as <-;
          repeat split; simpl;
          repeat match goal with
            | |- context [truthy ?k] => destruct (truthy k); simpl
            end;
          reflexivity).
Qed.

Lemma saved_record_fields_witness :
  let r := mkImageMetadata "id1" "a.webp" 1000 None "portrait" [] "webp" 500 800
             (mkPaths "original/portrait/id1.webp" "original/portrait/id1.webp" "")
             (mkSizes 4 4 0) in
  In (EvSaveImage r)
     (trace (uploadSingleHandler Sample.lib Sample.env_ok
               (Sample.upload_of Sample.webp_file "4") Sample.empty_world)) /\
  expiryTime r
  = expiry_of Sample.env_ok
      (parseNumber Sample.lib
         (formData_get [("image", EntryFile Sample.webp_file)] "expiryMinutes") 0) /\
  sizes_original (sizes r) = file_size Sample.webp_file.
Proof.
  intros r.
  assert (H : In (EvSaveImage r)
                (trace (uploadSingleHandler Sample.lib Sample.env_ok
                          (Sample.upload_of Sample.webp_file "4")
                          Sample.empty_world)))
    by (vm_compute; auto 10).
  split; [exact H|].
  destruct (saved_record_fields Sample.lib Sample.env_ok
              (Sample.upload_of Sample.webp_file "4") Sample.empty_world
              _ _ _ r webp_accepted H)
    as (_ & _ & _ & H4 & _ & _ & _ & _ & _ & _ & H11).
  split; [exact H4 | exact H11].
Defined.

(** ** Retrieval *)

(** The outcome of serving a plan. *)
Lemma serve_run env p e w :
  run (serve env p) e w
  = match r2Key p with
    | Some key =>
        if truthy key then
          (if get_ok env key
           then match bucket w !! key with
                | Some body => rawResponse body (contentTypeFallback p)
                | None => not_found
                end
           else e, w, [EvGet key])
        else (match fetch env (targetUrl p) with
              | Some u =>
                  match up_ok u, up_body u with
                  | true, Some body =>
                      rawResponse body (proxied_type u (contentTypeFallback p))
                  | _, _ => not_found
                  end
              | None => e
              end, w, [EvFetch (targetUrl p)])
    | None => (match fetch env (targetUrl p) with
               | Some u =>
                   match up_ok u, up_body u with
                   | true, Some body =>
                       rawResponse body (proxied_type u (contentTypeFallback p))
                   | _, _ => not_found
                   end
               | None => e
               end, w, [EvFetch (targetUrl p)])
    end.
Proof.
  assert (Hp : run (serve_proxy env p) e w
               = (match fetch env (targetUrl p) with
                  | Some u =>
                      match up_ok u, up_body u with
                      | true, Some body =>
                          rawResponse body (proxied_type u (contentTypeFallback p))
                      | _, _ => not_found
                      end
                  | None => e
                  end, w, [EvFetch (targetUrl p)])).
  { unfold run, serve_proxy, fetch_url, bind, emit, ret, throw, return_,
      proxied_type, str_or.
    destruct (fetch env (targetUrl p)) as [u|]; [|reflexivity].
    destruct (up_ok u), (up_body u); reflexivity. }
  unfold run, serve in *. destruct (r2Key p) as [key|]; [|exact Hp].
  destruct (truthy key); [|exact Hp].
  unfold storage_get, bind, emit, get_world, ret, throw, return_.
  destruct (get_ok env key); [|reflexivity].
  destruct (bucket w !! key); reflexivity.
Qed.

(** The outcome of the retrieval handler. *)
Lemma random_run lib env req w :
  randomHandler lib env req w
  = match getRandomImage env (filter_of lib req) with
    | None => (random_failed, w, [EvSelect (filter_of lib req)])
    | Some None =>
        (errorResponse "No images found matching criteria" (Some 404), w,
         [EvSelect (filter_of lib req)])
    | Some (Some image) =>
        after [EvSelect (filter_of lib req)]
          (run (serve env (plan_of lib env req image)) random_failed w)
    end.
Proof.
  unfold randomHandler, random_failed.
  unfold run at 1. unfold random_body, metadata_getRandomImage, bind at 1.
  unfold bind at 1, emit, ret, throw.
  destruct (getRandomImage env (filter_of lib req)) as [[image|]|];
    try reflexivity.
  simpl. unfold after, run.
  destruct (serve env (plan_of lib env req image) w) as [[[r|r|] w1] t1]; reflexivity.
Qed.

(** X13. Retrieval never modifies either store, and its I/O is one random
    selection followed by at most one further call: a read of one object or a
    fetch of one transform URL, never both. *)
Theorem retrieval_reads_once (lib : Lib) (env : Env) (req : RandomRequest)
    (w : World) :
  let o := randomHandler lib env req w in
  world o = w /\
  (trace o = [EvSelect (filter_of lib req)] \/
   (exists key, trace o = [EvSelect (filter_of lib req); EvGet key]) \/
   (exists url, trace o = [EvSelect (filter_of lib req); EvFetch url])).
Proof.
  intros o. subst o. rewrite random_run.
  destruct (getRandomImage env (filter_of lib req)) as [[image|]|];
    [|split; [reflexivity | now left] ..].
  rewrite serve_run. unfold world, trace, after.
  destruct (r2Key (plan_of lib env req image)) as [key|]; [destruct (truthy key)|];
    simpl; (split; [reflexivity | right; eauto]).
Qed.

(** X14. The filter handed to the random selection always carries an
    orientation, and only "landscape" or "portrait": the query parameter
    when it is one of the two, whatever the device; otherwise portrait for a
    mobile user agent and landscape for any other. An empty tag or exclusion
    list is passed as absent, never as an empty list. *)
Theorem retrieval_filter (lib : Lib) (env : Env) (req : RandomRequest) (w : World) :
  exists f rest,
    trace (randomHandler lib env req w) = EvSelect f :: rest /\
    (f_orientation f = Some "landscape" \/ f_orientation f = Some "portrait") /\
    (q_orientation req = Some "landscape" \/ q_orientation req = Some "portrait" ->
     f_orientation f = q_orientation req) /\
    (q_orientation req <> Some "landscape" -> q_orientation req <> Some "portrait" ->
     f_orientation f
     = Some (if isMobileDevice lib (h_userAgent req) then "portrait" else "landscape")) /\
    f_tags f <> Some [] /\ f_exclude f <> Some [].
Proof.
  exists (filter_of lib req).
  assert (Htr : exists rest, trace (randomHandler lib env req w)
                             = EvSelect (filter_of lib req) :: rest).
  { rewrite random_run.
    destruct (getRandomImage env (filter_of lib req)) as [[image|]|];
      unfold trace, after; simpl; eexists; reflexivity. }
  destruct Htr as [rest Htr]. exists rest. split; [exact Htr|].
  unfold filter_of, pick_orientation. simpl.
  split; [|split; [|split; [|split]]].
  - destruct (q_orientation req) as [o|].
    + destruct (String.eqb_spec o "landscape") as [-> | Hl]; [now left|].
      destruct (String.eqb_spec o "portrait") as [-> | Hp]; [now right|].
      simpl. destruct (isMobileDevice lib _); auto.
    + destruct (isMobileDevice lib _); auto.
  - intros [-> | ->]; reflexivity.
  - intros Hl Hp. destruct (q_orientation req) as [o|]; [|reflexivity].
    rewrite (eqb_ne o "landscape"), (eqb_ne o "portrait") by congruence.
    reflexivity.
  - destruct (parseTags lib _); simpl; discriminate.
  - destruct (parseTags lib (option_map EntryString (q_exclude req)));
      simpl; discriminate.
Qed.

Lemma retrieval_filter_witness :
  exists f rest,
    trace (randomHandler Sample.lib Sample.env_ok
             (mkRandomRequest (Some "") None (Some "square") None
                (Some "Mozilla/5.0 (iPhone)") None)
             Sample.empty_world) = EvSelect f :: rest /\
    f_orientation f = Some "landscape" /\ f_tags f <> Some [].
Proof.
  destruct (retrieval_filter Sample.lib Sample.env_ok
              (mkRandomRequest (Some "") None (Some "square") None
                 (Some "Mozilla/5.0 (iPhone)") None)
              Sample.empty_world) as (f & rest & Ht & _ & _ & Ho & Htags & _).
  exists f, rest. split; [exact Ht|]. split; [|exact Htags].
  apply Ho; discriminate.
Defined.

(** With a record selected, the whole outcome is that of serving its plan. *)
Lemma random_serves lib env req w image :
  getRandomImage env (filter_of lib req) = Some (Some image) ->
  response (randomHandler lib env req w)
  = response (run (serve env (plan_of lib env req image)) random_failed w).
Proof.
  intros H. rewrite random_run, H. reflexivity.
Qed.

(** The plan of a record that is not a gif. *)
Lemma plan_of_target lib env req image :
  format image <> "gif" ->
  plan_of lib env req image
  = plan_for lib image
      (buildImageUrls lib (R2_PUBLIC_URL env) image (url_options image))
      (select_format lib (q_format req) (h_accept req)).
Proof.
  intros Hg. unfold plan_of, plan. now rewrite (eqb_ne _ _ Hg).
Qed.

(** X15. What a retrieval served from the object store answers, when reads
    of the store do not fail. A gif is its original with type image/gif,
    whatever is requested. For any other record: the original target, and a
    derived target for which no URL was built, give the original's bytes
    with the original format's own Content-Type; a derived target with a
    concrete slot gives that slot's bytes as image/webp or image/avif. *)
Theorem served_from_store (lib : Lib) (env : Env) (req : RandomRequest)
    (w : World) (image : ImageMetadata) (body : Blob) :
  getRandomImage env (filter_of lib req) = Some (Some image) ->
  paths_original (paths image) <> "" ->
  (forall k, get_ok env k = true) ->
  let urls := buildImageUrls lib (R2_PUBLIC_URL env) image (url_options image) in
  let t := select_format lib (q_format req) (h_accept req) in
  let o := randomHandler lib env req w in
  (format image = "gif" ->
   bucket w !! paths_original (paths image) = Some body ->
   response o = rawResponse body "image/gif") /\
  (format image <> "gif" -> t = original \/ url_of urls t = "" ->
   bucket w !! paths_original (paths image) = Some body ->
   response o = rawResponse body (getContentType lib (format image))) /\
  (format image <> "gif" -> t <> original -> url_of urls t <> "" ->
   slot image t <> "" -> ~ is_marker image t ->
   bucket w !! slot image t = Some body ->
   response o = rawResponse body (mime_of t)).
Proof.
  intros Hsel Ho Hget urls t o. subst o.
  rewrite (random_serves _ _ _ _ _ Hsel).
  split; [|split].
  - intros Hg Hb.
    rewrite (serve_with_key env _ w _ (paths_original (paths image))); [| |exact Ho].
    + rewrite Hget, Hb. unfold plan_of, plan. now rewrite Hg.
    + unfold plan_of, plan. now rewrite Hg.
  - intros Hg Ht Hb. rewrite (plan_of_target _ _ _ _ Hg). fold urls t.
    rewrite (serve_with_key env _ w _ (paths_original (paths image))); [| |exact Ho].
    + rewrite Hget, Hb. f_equal.
      destruct t; [reflexivity | |];
        destruct Ht as [Ht | Ht]; try discriminate; simpl in *; now rewrite Ht.
    + destruct t; [reflexivity | |];
        destruct Ht as [Ht | Ht]; try discriminate; simpl in *; now rewrite Ht.
  - intros Hg Ht Hu Hs Hm Hb. rewrite (plan_of_target _ _ _ _ Hg). fold urls t.
    destruct (plan_for_derived lib image urls t Ht) as [Hk _].
    assert (Hkey : r2Key (plan_for lib image urls t) = Some (slot image t)).
    { rewrite Hk. apply variant_key_concrete; [exact Hu | exact Hs |].
      intros He.
      destruct (String.eqb_spec (format image) (target_name t)) as [_|Hf];
        [reflexivity|].
      exfalso. apply Hm. split; assumption. }
    rewrite (serve_with_key env _ w _ (slot image t) Hkey Hs), Hget, Hb. f_equal.
    apply truthy_true in Hu.
    destruct t; [congruence | |]; simpl in *; now rewrite Hu.
Qed.

(** The jpeg with a concrete avif variant: asked for avif it answers the
    stored avif bytes; asked for the original, the jpeg. *)
Lemma served_from_store_witness :
  response (randomHandler Sample.lib (Sample2.env_jpeg Sample.ok_upstream)
              (Sample.random_req (Some "avif") None) Sample2.jpeg_world)
  = rawResponse [Byte.x00; Byte.x01] "image/avif" /\
  response (randomHandler Sample.lib (Sample2.env_jpeg Sample.ok_upstream)
              (Sample.random_req (Some "original") (Some "image/avif"))
              Sample2.jpeg_world)
  = rawResponse [Byte.xff; Byte.xd8] "image/jpeg".
Proof.
  split.
  - apply (proj2 (proj2 (served_from_store Sample.lib
                           (Sample2.env_jpeg Sample.ok_upstream)
                           (Sample.random_req (Some "avif") None)
                           Sample2.jpeg_world Sample2.jpeg_record
                           [Byte.x00; Byte.x01] eq_refl ltac:(discriminate)
                           (fun _ => eq_refl))));
      try discriminate; try reflexivity.
    intros [H _]. discriminate H.
  - apply (proj1 (proj2 (served_from_store Sample.lib
                           (Sample2.env_jpeg Sample.ok_upstream)
                           (Sample.random_req (Some "original") (Some "image/avif"))
                           Sample2.jpeg_world Sample2.jpeg_record
                           [Byte.xff; Byte.xd8] eq_refl ltac:(discriminate)
                           (fun _ => eq_refl))));
      [discriminate | left; reflexivity | reflexivity].
Defined.

(** X16. A proxied retrieval passes the upstream body through with the
    upstream's own Content-Type; when the upstream response has none, or an
    empty one, the type is that of the negotiated format, image/webp or
    image/avif. *)
Theorem proxied_content_type (lib : Lib) (env : Env) (req : RandomRequest)
    (w : World) (image : ImageMetadata) (u : Upstream) (body : Blob) :
  getRandomImage env (filter_of lib req) = Some (Some image) ->
  format image <> "gif" ->
  let urls := buildImageUrls lib (R2_PUBLIC_URL env) image (url_options image) in
  let t := select_format lib (q_format req) (h_accept req) in
  t <> original -> url_of urls t <> "" ->
  slot image t = "" \/ is_marker image t ->
  paths_original (paths image) <> "" ->
  fetch env (url_of urls t) = Some u ->
  up_ok u = true -> up_body u = Some body ->
  response (randomHandler lib env req w)
  = rawResponse body (proxied_type u (mime_of t)).
Proof.
  intros Hsel Hg urls t Ht Hu Hs Ho Hf Hok Hb.
  rewrite (random_serves _ _ _ _ _ Hsel), serve_run, (plan_of_target _ _ _ _ Hg).
  fold urls t.
  destruct (plan_for_derived lib image urls t Ht) as [Hk Hurl].
  assert (Hkey : r2Key (plan_for lib image urls t) = None).
  { rewrite Hk. destruct Hs as [-> | [-> Hfmt]].
    - now apply variant_key_empty_slot.
    - rewrite (eqb_ne _ _ Hfmt). now apply variant_key_marker. }
  rewrite Hkey, Hurl, (str_or_truthy _ _ Hu), Hf, Hok, Hb.
  unfold response. simpl. f_equal. f_equal.
  apply truthy_true in Hu.
  destruct t; [congruence | |]; simpl in *; now rewrite Hu.
Qed.

(** The marker webp slot of the sample png, proxied to an upstream that
    sends no Content-Type. *)
Lemma proxied_content_type_witness :
  response (randomHandler Sample.lib
              (Sample.env None "" (Some Sample.png_record)
                 Sample2.untyped_upstream [] "")
              (Sample.random_req (Some "webp") None) Sample.empty_world)
  = rawResponse [Byte.x0a] "image/webp".
Proof.
  apply (proxied_content_type Sample.lib
           (Sample.env None "" (Some Sample.png_record)
              Sample2.untyped_upstream [] "")
           (Sample.random_req (Some "webp") None) Sample.empty_world
           Sample.png_record Sample2.untyped_upstream [Byte.x0a]);
    try reflexivity; try discriminate.
  right. split; [reflexivity | discriminate].
Defined.

(** X17. The retrieval answers with the generic failure of its outer
    [catch] exactly when a service call it awaits rejects: the random
    selection, the read of the planned object, or the transform fetch. An
    absent object or a refused transform is a 404, never this failure. *)
Theorem retrieval_generic_failure (lib : Lib) (env : Env) (req : RandomRequest)
    (w : World) :
  response (randomHandler lib env req w) = random_failed <->
  ServiceRejects lib env req.
Proof.
  unfold ServiceRejects.
  destruct (getRandomImage env (filter_of lib req)) as [[image|]|] eqn:Hsel.
  - rewrite (random_serves _ _ _ _ _ Hsel).
    destruct (key_cases (r2Key (plan_of lib env req image)))
      as [(key & Hk & Hne) | Hk].
    + rewrite (serve_with_key _ _ _ _ _ Hk Hne). split.
      * intros H. right. left. exists image, key.
        destruct (get_ok env key); [|auto].
        destruct (bucket w !! key); discriminate H.
      * intros [H | [(im & k & Him & Hk' & _ & Hg) | (im & Him & Hk' & _)]].
        -- discriminate H.
        -- injection Him as <-. rewrite Hk in Hk'. injection Hk' as <-.
           now rewrite Hg.
        -- injection Him as <-. rewrite Hk in Hk'.
           destruct Hk' as [Hk' | Hk']; [discriminate|].
           injection Hk' as ->. contradiction.
    + rewrite (serve_without_key _ _ _ _ Hk). split.
      * intros H. right. right. exists image.
        destruct (fetch env _) as [u|]; [|auto].
        destruct (up_ok u), (up_body u); discriminate H.
      * intros [H | [(im & k & Him & Hk' & Hne & _) | (im & Him & _ & Hf)]].
        -- discriminate H.
        -- injection Him as <-. rewrite Hk' in Hk.
           destruct Hk as [Hk | Hk]; [discriminate|].
           injection Hk as ->. contradiction.
        -- injection Him as <-. now rewrite Hf.
  - rewrite random_run, Hsel. unfold response. simpl. split; [discriminate|].
    intros [H | [(im & k & H & _) | (im & H & _)]]; discriminate H.
  - rewrite random_run, Hsel. unfold response. simpl. split; [auto | reflexivity].
Qed.

(** The store read of the jpeg's avif variant rejects. *)
Lemma retrieval_generic_failure_witness :
  response (randomHandler Sample.lib Sample2.env_get_fails
              (Sample.random_req (Some "avif") None) Sample2.jpeg_world)
  = random_failed.
Proof.
  apply (proj2 (retrieval_generic_failure Sample.lib Sample2.env_get_fails
                  (Sample.random_req (Some "avif") None) Sample2.jpeg_world)).
  right. left. exists Sample2.jpeg_record, "avif/j.avif".
  split; [reflexivity|]. split; [reflexivity|]. split; [discriminate | reflexivity].
Defined.

(** ** The stores after a cleanup sweep *)

(** X18. When the list of expired images cannot be obtained the sweep is
    not started: the answer is the generic "Cleanup failed" and nothing is
    deleted. *)
Theorem cleanup_without_list (env : Env) (w : World) :
  getExpiredImages env = None ->
  cleanupHandler env w = (errorResponse "Cleanup failed" None, w, [EvListExpired]).
Proof.
  intros H. unfold cleanupHandler, run, cleanup_body, metadata_getExpiredImages,
    bind, emit, throw. now rewrite H.
Qed.

Lemma cleanup_without_list_witness :
  cleanupHandler Sample2.env_get_fails_list Sample2.sweep_start
  = (errorResponse "Cleanup failed" None, Sample2.sweep_start, [EvListExpired]).
Proof.
  apply (cleanup_without_list Sample2.env_get_fails_list Sample2.sweep_start).
  reflexivity.
Defined.

(** X19. After a sweep the object store has lost exactly the objects of the
    expired images whose byte deletion succeeded: each of their keys is
    absent, whether or not the row deletion that followed succeeded, and
    every other key holds what it held before. *)
Theorem sweep_object_store (env : Env) (w : World) (expired : list ImageMetadata) :
  getExpiredImages env = Some expired ->
  let o := cleanupHandler env w in
  (forall image k, In image expired ->
     deleteMany_ok env (keysToDelete image) = true ->
     In k (keysToDelete image) ->
     bucket (world o) !! k = None) /\
  (forall k,
     (forall image, In image expired ->
        deleteMany_ok env (keysToDelete image) = true ->
        ~ In k (keysToDelete image)) ->
     bucket (world o) !! k = bucket w !! k).
Proof.
  intros Hexp o. subst o. rewrite (cleanup_world env w expired Hexp). split.
  - intros image k. apply sweep_all_bucket_gone.
  - intros k. apply sweep_all_bucket_kept.
Qed.

Lemma sweep_object_store_witness :
  let o := cleanupHandler Sample.env_sweep Sample2.sweep_start in
  bucket (world o) !! "original/landscape/b.gif" = None /\
  bucket (world o) !! "original/landscape/j.jpeg" = Some [Byte.xff; Byte.xd8].
Proof.
  intros o.
  destruct (sweep_object_store Sample.env_sweep Sample2.sweep_start
              [Sample.expired_a; Sample.expired_b; Sample.expired_c] eq_refl)
    as [Hgone Hkept].
  split.
  - apply (Hgone Sample.expired_b); [simpl; auto | reflexivity | simpl; auto].
  - rewrite Hkept; [reflexivity|].
    intros image [<- | [<- | [<- | []]]] _; simpl;
      intros H; repeat (destruct H as [H|H]; [discriminate H|]); exact H.
Defined.

(** X20. After a sweep the database has lost exactly the rows whose
    identifier is that of an expired image for which both deletions
    succeeded. In particular the row of an image whose byte deletion or row
    deletion failed is kept, so the image is still listed as expired for the
    next sweep, and no row of an image that is not expired is touched. *)
Theorem sweep_database (env : Env) (w : World) (expired : list ImageMetadata)
    (r : ImageMetadata) :
  getExpiredImages env = Some expired ->
  (In r (db (world (cleanupHandler env w))) <->
   In r (db w) /\
   forall image, In image expired -> swept env image = true -> id r <> id image).
Proof.
  intros Hexp. rewrite (cleanup_world env w expired Hexp). apply sweep_all_db.
Qed.

(** Of the four sample rows, those of a and c are removed; b, whose row
    deletion failed, and the jpeg, which is not expired, are kept. *)
Lemma sweep_database_witness :
  In Sample.expired_b (db (world (cleanupHandler Sample.env_sweep Sample2.sweep_start))) /\
  In Sample2.jpeg_record
     (db (world (cleanupHandler Sample.env_sweep Sample2.sweep_start))) /\
  ~ In Sample.expired_a
      (db (world (cleanupHandler Sample.env_sweep Sample2.sweep_start))).
Proof.
  split; [|split].
  - apply (proj2 (sweep_database Sample.env_sweep Sample2.sweep_start
                    [Sample.expired_a; Sample.expired_b; Sample.expired_c]
                    Sample.expired_b eq_refl)).
    split; [simpl; auto|].
    intros image [<- | [<- | [<- | []]]] Hs; try discriminate Hs; discriminate.
  - apply (proj2 (sweep_database Sample.env_sweep Sample2.sweep_start
                    [Sample.expired_a; Sample.expired_b; Sample.expired_c]
                    Sample2.jpeg_record eq_refl)).
    split; [simpl; auto|].
    intros image [<- | [<- | [<- | []]]] Hs; try discriminate Hs; discriminate.
  - intros Hin.
    apply (proj1 (sweep_database Sample.env_sweep Sample2.sweep_start
                    [Sample.expired_a; Sample.expired_b; Sample.expired_c]
                    Sample.expired_a eq_refl)) in Hin as [_ Hne].
    apply (Hne Sample.expired_a); [simpl; auto | reflexivity | reflexivity].
Defined.

(** ** The configuration handler *)

Lemma assign_lookup config key v k :
  assign config key v !! k
  = if String.eqb key "__proto__" then config !! k
    else if decide (key = k) then Some v else config !! k.
Proof.
  unfold assign. destruct (String.eqb key "__proto__"); [reflexivity|].
  apply lookup_insert.
Qed.

Lemma fold_rows_lookup cl rows : forall config k,
  k <> "__proto__" ->
  fold_left (fun c row => assign c row.1 (row_value cl row.2)) rows config !! k
  = match last_row rows k with
    | Some v => Some (row_value cl v)
    | None => config !! k
    end.
Proof.
  induction rows as [|[k' v] rest IH]; intros config k Hk; simpl; [reflexivity|].
  rewrite IH by exact Hk.
  destruct (last_row rest k) as [v'|]; [reflexivity|].
  rewrite assign_lookup.
  destruct (String.eqb_spec k' k) as [-> | Hne].
  - rewrite (eqb_ne _ _ Hk). now rewrite decide_True.
  - destruct (String.eqb k' "__proto__"); [reflexivity|].
    now rewrite decide_False.
Qed.

(** X21. On a cache miss with a working database and cache, the
    configuration answered is the defaults overridden by the rows of the
    [config] table: for each key the last row wins, its value parsed as JSON
    or, when it is not JSON, kept as the raw string; a key without a row
    keeps its default. The same object is written to the cache. *)
Theorem config_rows_override (cl : ConfigLib) (ce : ConfigEnv)
    (kv : gmap string ConfigObject) (rows : list (string * string)) :
  cache_get_ok ce = true ->
  kv !! config_key cl = None ->
  config_query ce = Some (Some rows) ->
  cache_set_ok ce = true ->
  let o := configHandler cl ce kv in
  (forall k, k <> "__proto__" ->
     o.1.1 !! k = match last_row rows k with
                  | Some v => Some (row_value cl v)
                  | None => DEFAULT_CONFIG !! k
                  end) /\
  o.1.2 = <[config_key cl := o.1.1]> kv /\
  o.2 = [CfCacheGet (config_key cl) true; CfQuery true;
         CfCacheSet (config_key cl) o.1.1 (config_ttl cl) true].
Proof.
  intros Hg Hmiss Hq Hs o. subst o. unfold configHandler.
  rewrite Hg, Hmiss, Hq, Hs. simpl. split; [|split; reflexivity].
  intros k Hk. destruct rows as [|row rest]; [reflexivity|].
  unfold responseData_of, apply_rows. now apply fold_rows_lookup.
Qed.

Lemma config_rows_override_witness :
  let o := configHandler Sample2.config_lib Sample2.config_env Sample2.empty_cache in
  o.1.1 !! "maxUploadCount" = Some (JNum 90 0) /\
  o.1.1 !! "imageQuality" = Some (JStr "high") /\
  o.1.1 !! "maxFileSize" = Some (JNum (70 * 1024 * 1024) 0).
Proof.
  intros o.
  destruct (config_rows_override Sample2.config_lib Sample2.config_env Sample2.empty_cache
              Sample2.config_rows eq_refl ltac:(vm_compute; reflexivity)
              eq_refl eq_refl) as [Hk _].
  split; [|split].
  - exact (Hk "maxUploadCount" ltac:(discriminate)).
  - exact (Hk "imageQuality" ltac:(discriminate)).
  - exact (Hk "maxFileSize" ltac:(discriminate)).
Defined.

(** X22. The configuration handler never fails towards the caller: when the
    cache read rejects, or on a miss the query or the cache write rejects, it
    answers the defaults and leaves the cache as it was. In particular a
    failed cache write hides the rows that the query had returned. *)
Theorem config_failure_gives_defaults (cl : ConfigLib) (ce : ConfigEnv)
    (kv : gmap string ConfigObject) :
  config_fails ce kv cl ->
  (configHandler cl ce kv).1.1 = DEFAULT_CONFIG /\
  (configHandler cl ce kv).1.2 = kv.
Proof.
  unfold config_fails, configHandler.
  intros [Hg | (Hmiss & [Hq | Hs])].
  - now rewrite Hg.
  - destruct (cache_get_ok ce); [|auto]. now rewrite Hmiss, Hq.
  - destruct (cache_get_ok ce); [|auto]. rewrite Hmiss, Hs.
    destruct (config_query ce); auto.
Qed.

Lemma config_failure_gives_defaults_witness :
  (configHandler Sample2.config_lib
     Sample2.config_env_unwritable Sample2.empty_cache).1.1
  = DEFAULT_CONFIG.
Proof.
  apply (config_failure_gives_defaults Sample2.config_lib
           Sample2.config_env_unwritable Sample2.empty_cache).
  right. split; [vm_compute; reflexivity | right; reflexivity].
Defined.


(** ** An expiry that is not a date *)

(** X24. A requested expiry whose time value leaves the range of [Date]
    makes [toISOString] throw after the writes were awaited: the upload is
    answered with the generic failure, no record is saved and the database
    is untouched, but nothing is rolled back: when the write of the original
    succeeded the object stays in the store, referenced by no record. *)
Theorem upload_expiry_out_of_range (lib : Lib) (env : Env) (req : UploadRequest)
    (w : World) (fd : FormData) (file : File) (info : ImageInfo) :
  Accepted lib req fd file info ->
  expiry_valid env (minutes_of lib fd) = false ->
  let o := uploadSingleHandler lib env req w in
  response o = errorResponse "Upload failed" None /\
  (forall r, ~ In (EvSaveImage r) (trace o)) /\
  db (world o) = db w /\
  (upload_ok env (paths_original (allocated lib env info)) = true ->
   In (EvPutDone (paths_original (allocated lib env info))) (trace o) /\
   is_Some (bucket (world o) !! paths_original (allocated lib env info))).
Proof.
  intros Hacc Hbad o. subst o. revert Hbad.
  accepted_paths lib env req w fd file info Hacc
    ltac:(intros Hbad; try discriminate Hbad;
          unfold trace, world, response, after, saved, written; simpl;
          (split; [reflexivity|]);
          (split; [intros r H; in_trace H|]);
          (split; [reflexivity|]);
          intros Hup; try discriminate Hup; try congruence;
          (split; [find_event | stored])).
Qed.

(** The gif with an expiry of 150000000000 minutes: the original is written,
    the request fails and no row is added. *)
Lemma upload_expiry_out_of_range_witness :
  let o := uploadSingleHandler Sample2.lib_numbers Sample.env_ok
             Sample2.far_expiry_upload Sample.empty_world in
  o = (errorResponse "Upload failed" None,
       mkWorld {["original/landscape/id1.gif" := [Byte.x47]]} [],
       [EvReadBody; EvPutStart "original/landscape/id1.gif";
        EvPutDone "original/landscape/id1.gif"]) /\
  is_Some (bucket (world o) !! "original/landscape/id1.gif").
Proof.
  intros o. split; [vm_compute; reflexivity|].
  assert (Hacc : Accepted Sample2.lib_numbers Sample2.far_expiry_upload
                   Sample2.far_expiry_form (mkFile "a.gif" 1 [Byte.x47])
                   (mkImageInfo "gif" 2000 1000 "landscape"))
    by (split; [reflexivity | reflexivity | reflexivity | vm_compute; discriminate
               | reflexivity | reflexivity]).
  destruct (upload_expiry_out_of_range Sample2.lib_numbers Sample.env_ok
              Sample2.far_expiry_upload Sample.empty_world _ _ _ Hacc
              ltac:(vm_compute; reflexivity))
    as (_ & _ & _ & Hkept).
  exact (proj2 (Hkept eq_refl)).
Defined.
